(** * ELV tracking backend: the sync reconciler and the event rule engine

    A shallow embedding of [src/main.py] (the FastAPI handlers
    [create_vehicle], [log_event], [register_part] and [sync], with the
    request models they validate against) and of the enumerations that
    [src/schemas.py] declares.  Request bodies and stored documents are
    finite maps from field names to JSON-like values; the handlers run in
    a small state-and-exception monad over the document store and the
    server clock. *)

From Stdlib Require Import ZArith NArith String Ascii List Permutation Sorted Lia.
From stdpp Require Import gmap strings list fin_maps.

Set Warnings "-register-all".
Local Open Scope string_scope.

(** ** Values and documents *)

(** What a Python [dict] read from a JSON body, or a stored document,
    can hold: [None], booleans, integers, floats (mantissa and binary
    exponent), strings, [datetime]s (microseconds on the UTC time line),
    [ObjectId]s of twelve bytes (the 96-bit number they spell), lists
    and nested dicts. *)
Inductive value : Type :=
| VNull
| VBool (b : bool)
| VInt (z : Z)
| VFloat (m e : Z)
| VStr (s : string)
| VDate (t : Z)
| VOid (n : N)
| VList (l : list value)
| VDict (d : gmap string value).

Abbreviation doc := (gmap string value).

Definition is_none (v : value) : bool :=
  match v with VNull => true | _ => false end.

(** Python truthiness, as used by [if not doc] and [a and b]. *)
Definition truthy (v : value) : bool :=
  match v with
  | VNull => false
  | VBool b => b
  | VInt z => negb (z =? 0)%Z
  | VFloat m _ => negb (m =? 0)%Z
  | VStr s => negb (String.eqb s "")
  | VDate _ => true
  | VOid _ => true
  | VList l => match l with [] => false | _ => true end
  | VDict d => negb (bool_decide (dom d = ∅))
  end.

(** [d.get(k)]: the value at [k], [None] when the key is missing. *)
Definition get (k : string) (d : doc) : value :=
  match d !! k with Some v => v | None => VNull end.

(** [d.setdefault(k, v)]: only a missing key is filled; a key that is
    present keeps its value, even when that value is [None]. *)
Definition setdefault (k : string) (v : value) (d : doc) : doc :=
  match d !! k with Some _ => d | None => <[k := v]> d end.

(** [x in {"dismantling", "scrap"}] for a value [x]. *)
Definition str_in (v : value) (names : list string) : bool :=
  match v with
  | VStr s => existsb (String.eqb s) names
  | _ => false
  end.

Definition str_is (v : value) (name : string) : bool :=
  match v with VStr s => String.eqb s name | _ => false end.

(** ** ObjectId *)

(** [bson.ObjectId(s)] on a string [s] checks [len(s) == 24] and keeps
    [bytes.fromhex(s)].  [bytes.fromhex] reads pairs of hexadecimal
    digits of either case and skips ASCII whitespace between the pairs,
    so a string of 24 digits gives twelve bytes and a string of 24
    characters of which some are whitespace gives fewer.  Bytes are
    numbers below 256. *)
Definition hex_val (c : ascii) : option N :=
  let code := N_of_ascii c in
  if (48 <=? code)%N && (code <=? 57)%N then Some (code - 48)%N
  else if (97 <=? code)%N && (code <=? 102)%N then Some (code - 87)%N
  else if (65 <=? code)%N && (code <=? 70)%N then Some (code - 55)%N
  else None.

Definition hex_digit (d : N) : ascii :=
  ascii_of_N (if (d <? 10)%N then 48 + d else 87 + d)%N.

(** Space, tab, line feed, vertical tab, form feed, carriage return. *)
Definition is_space (c : ascii) : bool :=
  let code := N_of_ascii c in
  ((9 <=? code)%N && (code <=? 13)%N) || (code =? 32)%N.

Fixpoint fromhex (s : string) : option (list N) :=
  match s with
  | EmptyString => Some []
  | String c s' =>
      if is_space c then fromhex s'
      else
        match hex_val c, s' with
        | Some top, String c' s'' =>
            match hex_val c', fromhex s'' with
            | Some bot, Some rest => Some ((16 * top + bot)%N :: rest)
            | _, _ => None
            end
        | _, _ => None
        end
  end.

(** [ObjectId(s)]: the bytes the id holds, [None] for [InvalidId]. *)
Definition ObjectId (s : string) : option (list N) :=
  if Nat.eqb (String.length s) 24 then fromhex s else None.

(** [str(oid)]: two lower-case digits per byte. *)
Fixpoint hexlify (b : list N) : string :=
  match b with
  | [] => EmptyString
  | x :: b' =>
      String (hex_digit (x / 16)%N) (String (hex_digit (x mod 16)%N) (hexlify b'))
  end.

(** The ids the store assigns have twelve bytes; such an id is named
    by the number below [2^96] that its bytes spell, most significant
    byte first.  [oid_bytes n] are the bytes of the id [n],
    [oid_number b] is the id with the bytes [b], if they are twelve,
    and [oid_str n] is [str] of the id [n], 24 lower-case digits. *)
Fixpoint be_bytes (k : nat) (n : N) (acc : list N) : list N :=
  match k with
  | O => acc
  | S k' => be_bytes k' (n / 256)%N ((n mod 256)%N :: acc)
  end.

Definition oid_bytes (n : N) : list N := be_bytes 12 n [].

Definition oid_number (b : list N) : option N :=
  if Nat.eqb (length b) 12
  then Some (fold_left (fun acc x => (256 * acc + x)%N) b 0%N)
  else None.

Fixpoint hex_render (k : nat) (n : N) (acc : string) : string :=
  match k with
  | O => acc
  | S k' => hex_render k' (n / 16)%N (String (hex_digit (n mod 16)%N) acc)
  end.

Definition oid_str (n : N) : string := hex_render 24 n "".

(** ** The document store *)

Inductive Coll : Type := vehicle | event | part.

(** Modelled from the spec: the document store adapter ([database.db],
    [create_document]) is imported by [src/main.py] but is not part of
    the sources.  The spec describes it as a collection-oriented store
    with [insert(collection, doc) -> id], [find_one(collection, id)] and
    [update(collection, id, patch)], ids being assigned by the store.
    Here each collection maps ObjectIds to documents and [next_oid] is
    the id the store assigns next. *)
Record Store : Type := mkStore {
  vehicles : gmap N (gmap string value);
  events : gmap N (gmap string value);
  parts : gmap N (gmap string value);
  next_oid : N
}.

Definition collection (c : Coll) (s : Store) : gmap N (gmap string value) :=
  match c with
  | vehicle => vehicles s
  | event => events s
  | part => parts s
  end.

Definition set_collection (c : Coll) (m : gmap N (gmap string value)) (s : Store) : Store :=
  match c with
  | vehicle => mkStore m (events s) (parts s) (next_oid s)
  | event => mkStore (vehicles s) m (parts s) (next_oid s)
  | part => mkStore (vehicles s) (events s) m (next_oid s)
  end.

(** Modelled from the spec: [insert(collection, doc) -> id] stores the
    document under the next free id. *)
Definition store_insert (c : Coll) (d : doc) (s : Store) : Store :=
  let s' := set_collection c (<[next_oid s := d]> (collection c s)) s in
  mkStore (vehicles s') (events s') (parts s') (N.succ (next_oid s)).

(** Modelled from the spec: [update(collection, id, patch)], as the
    [$set] of [update_one]: the fields of the patch overwrite those of
    the matching document; without a match nothing changes. *)
Definition store_update (c : Coll) (oid : N) (patch : doc) (s : Store) : Store :=
  match collection c s !! oid with
  | Some d => set_collection c (<[oid := patch ∪ d]> (collection c s)) s
  | None => s
  end.

(** The server: the store and the number of clock readings taken so
    far. *)
Record World : Type := mkWorld {
  db : Store;
  ticks : nat
}.

(** ** Handlers as state-and-exception computations *)

Inductive Except (A : Type) : Type :=
| Return (a : A)
| Raise (msg : string).
Arguments Return {A} a.
Arguments Raise {A} msg.

Definition M (A : Type) : Type := World -> Except A * World.

Definition ret {A} (a : A) : M A := fun w => (Return a, w).

Definition raise {A} (msg : string) : M A := fun w => (Raise msg, w).

(** A computation that touches neither the store nor the clock. *)
Definition lift {A} (e : Except A) : M A := fun w => (e, w).

Definition bind {A B} (m : M A) (k : A -> M B) : M B :=
  fun w =>
    match m w with
    | (Return a, w') => k a w'
    | (Raise msg, w') => (Raise msg, w')
    end.

(** [try: body  except Exception as e: handler(str(e))]; what the body
    did to the store before it raised stays done. *)
Definition try_except {A} (body : M A) (handler : string -> M A) : M A :=
  fun w =>
    match body w with
    | (Return a, w') => (Return a, w')
    | (Raise msg, w') => handler msg w'
    end.

Notation "x <- m ';;' k" := (bind m (fun x => k))
  (at level 100, m at next level, right associativity).

(** ** Request models

    A pydantic model is a list of fields, each with a type and, unless
    the field is required, a default.  Validation reads a JSON object:
    a missing key takes the default, a key that is present must conform
    to the type, keys that are not fields are ignored, and every
    offending field is reported. *)

Inductive ftype : Type :=
| TStr
| TInt
| TFloat
| TDatetime
| TDict
| TList (t : ftype)
| TOptional (t : ftype).

Record field : Type := Field {
  fname : string;
  ftyp : ftype;
  fdefault : option value
}.

Record verror : Type := VError {
  loc : string;
  msg : string
}.

(** [Optional[T] = None], [Optional[str] = "unknown"] and a required
    field. *)
Definition optional (name : string) (t : ftype) : field :=
  Field name (TOptional t) (Some VNull).

Definition optional_str_unknown (name : string) : field :=
  Field name (TOptional TStr) (Some (VStr "unknown")).

Definition required (name : string) (t : ftype) : field :=
  Field name t None.

Definition CreateVehiclePayload : list field :=
  [ optional "vin" TStr;
    optional "make" TStr;
    optional "model" TStr;
    optional "year" TInt;
    optional_str_unknown "engine_condition";
    optional_str_unknown "body_condition";
    optional_str_unknown "damage_level";
    optional "photos" (TList TStr);
    optional "last_known_location" TDict;
    optional "owner_id" TStr;
    optional_str_unknown "status" ].

Definition EventPayload : list field :=
  [ optional "vehicle_id" TStr;
    required "event_type" TStr;
    optional "actor_id" TStr;
    optional "notes" TStr;
    optional "metadata" TDict;
    optional "location" TDict;
    optional "occurred_at" TDatetime ].

Definition PartPayload : list field :=
  [ optional "vehicle_id" TStr;
    required "name" TStr;
    optional "serial_number" TStr;
    optional_str_unknown "condition";
    optional "location" TStr;
    optional "price_etb" TFloat ].

(** The enumerations of [src/schemas.py]. *)
Definition ConditionLevel : list string := ["good"; "fair"; "poor"; "unknown"].
Definition DamageLevel : list string := ["none"; "minor"; "moderate"; "severe"; "unknown"].
Definition VehicleStatus : list string :=
  ["imported"; "active"; "dismantled"; "scrapped"; "sold"; "unknown"].
Definition PartCondition : list string := ["new"; "used"; "damaged"; "unknown"].
Definition EventType : list string :=
  ["ownership_change"; "dismantling"; "recycling"; "scrap"; "inspection";
   "location_update"; "note"].

(** A [datetime], as far as comparing two of them goes: one without
    [tzinfo] (offset-naive) is the reading of its calendar fields, one
    with [tzinfo] (offset-aware) is an instant on the UTC time line;
    both are counted in microseconds.  pydantic makes either kind of a
    JSON string, according to whether the string carries an offset. *)
Inductive datetime : Type :=
| Naive (t : Z)
| Aware (t : Z).

Definition instant (d : datetime) : Z :=
  match d with Naive t => t | Aware t => t end.

Definition is_aware (d : datetime) : bool :=
  match d with Naive _ => false | Aware _ => true end.

(** [a < b]: two datetimes of one kind compare by their readings; one
    of each kind raise [TypeError]. *)
Definition cannot_compare : string :=
  "TypeError: can't compare offset-naive and offset-aware datetimes".

Definition datetime_lt (a b : datetime) : Except bool :=
  match a, b with
  | Naive s, Naive t => Return (s <? t)%Z
  | Aware s, Aware t => Return (s <? t)%Z
  | _, _ => Raise cannot_compare
  end.

(** The datetimes of a list are all of one kind. *)
Definition uniform (k : bool) (l : list datetime) : bool :=
  forallb (fun d => Bool.eqb (is_aware d) k) l.

Definition comparable (l : list datetime) : bool :=
  uniform true l || uniform false l.

(** [class Mutation] of [src/main.py], after validation: [op] is any
    string, [data] any JSON object and [client_timestamp] a datetime of
    either kind. *)
Record Mutation : Type := mkMutation {
  op : string;
  data : gmap string value;
  client_id : string;
  client_timestamp : datetime
}.

Record SyncEnvelope : Type := mkEnvelope {
  mutations : list Mutation
}.

(** The reading of a mutation's timestamp. *)
Definition timestamp (m : Mutation) : Z := instant (client_timestamp m).

(** [model.model_dump(exclude_none=True)]: the fields whose value is not
    [None]. *)
Definition model_dump_exclude_none (model : doc) : doc :=
  filter (fun kv => is_none kv.2 = false) model.

(** ** [sorted(xs, key=...)]

    Python's [sorted] is a stable ascending sort that compares the keys
    with [<].  It is modelled by a stable insertion sort; a comparison
    that raises makes the sort raise. *)
Section Sorted.
Context {A : Type} (key : A -> datetime).

Fixpoint insert_sorted (x : A) (l : list A) : Except (list A) :=
  match l with
  | [] => Return [x]
  | y :: l' =>
      match datetime_lt (key y) (key x) with
      | Raise e => Raise e
      | Return false => Return (x :: y :: l')
      | Return true =>
          match insert_sorted x l' with
          | Return l'' => Return (y :: l'')
          | Raise e => Raise e
          end
      end
  end.

Fixpoint sorted (l : list A) : Except (list A) :=
  match l with
  | [] => Return []
  | x :: l' =>
      match sorted l' with
      | Return s => insert_sorted x s
      | Raise e => Raise e
      end
  end.
End Sorted.

(** The same sort on keys that always compare (integers). *)
Section SortBy.
Context {A : Type} (key : A -> Z).

Fixpoint insert_by (x : A) (l : list A) : list A :=
  match l with
  | [] => [x]
  | y :: l' =>
      if (key x <=? key y)%Z then x :: y :: l' else y :: insert_by x l'
  end.

Fixpoint sort_by (l : list A) : list A :=
  match l with
  | [] => []
  | x :: l' => insert_by x (sort_by l')
  end.

Definition key_le (a b : A) : Prop := (key a <= key b)%Z.
End SortBy.

(** ** The operations the reconciler knows *)

Definition known_op (name : string) : bool :=
  existsb (String.eqb name) ["createVehicle"; "logEvent"; "registerPart"].

(** What an entry of the result list looks like for the mutation [m]:
    its [op], and exactly one of ok with an id, ignored with a reason,
    error with a message. *)
Definition tagged_outcome (m : Mutation) (r : doc) : Prop :=
  r !! "op" = Some (VStr (op m)) /\
  ((r !! "status" = Some (VStr "ok") /\ (exists i, r !! "id" = Some (VStr i))
    /\ r !! "reason" = None /\ r !! "error" = None)
   \/ (r !! "status" = Some (VStr "ignored") /\ (exists why, r !! "reason" = Some (VStr why))
       /\ r !! "id" = None /\ r !! "error" = None)
   \/ (r !! "status" = Some (VStr "error") /\ (exists e, r !! "error" = Some (VStr e))
       /\ r !! "id" = None /\ r !! "reason" = None)).

Definition is_ignored (r : doc) : bool := str_is (get "status" r) "ignored".

(** The field of a model that a key of the body is read into. *)
Definition find_field (k : string) (schema : list field) : option field :=
  List.find (fun f => String.eqb (fname f) k) schema.

(** The fields of the request models that [src/schemas.py] declares as
    enumerations and [src/main.py] as [Optional[str] = "unknown"]. *)
Definition vehicle_enum_fields : list string :=
  ["engine_condition"; "body_condition"; "damage_level"; "status"].

Definition part_enum_fields : list string := ["condition"].

(** [class Mutation] as a request model: [op] is a plain string. *)
Definition MutationModel : list field :=
  [ required "op" TStr;
    required "data" TDict;
    required "client_id" TStr;
    required "client_timestamp" TDatetime ].

(** ** Sample data

    A clock that advances by one microsecond per reading, a store that
    accepts every document, and a few worlds and requests. *)

Definition sample_clock (i : nat) : Z := (1700000000000000 + Z.of_nat i)%Z.

Definition accept_all (s : Store) (c : Coll) (d : gmap string value) : option string :=
  None.

(** A store that refuses parts without a name. *)
Definition parts_need_name (s : Store) (c : Coll) (d : gmap string value) : option string :=
  match c, d !! "name" with
  | part, None => Some "Document failed validation"
  | _, _ => None
  end.

Definition no_datetime (s : string) : option Z := None.

Definition repr_blank (v : value) : string := "".

Definition empty_world : World := mkWorld (mkStore ∅ ∅ ∅ 0) 0.

(** One vehicle, with id [000000000000000000000000] and no status. *)
Definition x1_world : World :=
  mkWorld (mkStore (<[0%N := <["vin" := VStr "X1"]> ∅]> ∅) ∅ ∅ 1) 0.

Definition x1_id : string := "000000000000000000000000".

Definition event_about (vehicle_id event_type : string) : gmap string value :=
  <["vehicle_id" := VStr vehicle_id]> (<["event_type" := VStr event_type]> ∅).

(** The end-to-end batch: a vehicle is created at time 1 and a
    dismantling event that names the id the store gives it follows at
    time 2; the client lists the event first. *)
Definition backfilled_batch : SyncEnvelope :=
  mkEnvelope
    [ mkMutation "logEvent" (event_about x1_id "dismantling") "client-1" (Aware 2);
      mkMutation "createVehicle" (<["vin" := VStr "X1"]> ∅) "client-1" (Aware 1) ].

Definition nameless_part : Mutation :=
  mkMutation "registerPart" (<["serial_number" := VStr "S-9"]> ∅) "client-1" (Aware 3).

(** A dismantling event for the vehicle of [x1_world], as a batch. *)
Definition dismantle_x1_batch : SyncEnvelope :=
  mkEnvelope [ mkMutation "logEvent" (event_about x1_id "dismantling") "client-1" (Aware 1) ].

(** A batch with an op the server does not know and a part the store
    [parts_need_name] refuses. *)
Definition mixed_batch : SyncEnvelope :=
  mkEnvelope
    [ mkMutation "createVehicle" (<["vin" := VStr "X1"]> ∅) "client-1" (Aware 1);
      mkMutation "foo" ∅ "client-1" (Aware 2);
      nameless_part;
      mkMutation "logEvent" (<["event_type" := VStr "note"]> ∅) "client-1" (Aware 3) ].

(** Requests with a value outside the enumerations. *)
Definition bogus_vehicle : gmap string value := <["status" := VStr "bogus"]> ∅.
Definition bogus_event : gmap string value := <["event_type" := VStr "bogus"]> ∅.
Definition bogus_part : gmap string value :=
  <["name" := VStr "door"]> (<["condition" := VStr "bogus"]> ∅).
Definition bogus_batch : SyncEnvelope :=
  mkEnvelope [ mkMutation "createVehicle" bogus_vehicle "client-1" (Aware 1) ].

(** An event whose [occurred_at] is sent as [null], and a vehicle whose
    [status] is. *)
Definition note_null_time : gmap string value :=
  <["event_type" := VStr "note"]> (<["occurred_at" := VNull]> ∅).
Definition vehicle_null_status : gmap string value :=
  <["vin" := VStr "X1"]> (<["status" := VNull]> ∅).


Definition vehicle_null_status_model : gmap string value :=
  <["vin" := VStr "X1"]> (<["make" := VNull]> (<["model" := VNull]>
  (<["year" := VNull]> (<["engine_condition" := VStr "unknown"]>
  (<["body_condition" := VStr "unknown"]> (<["damage_level" := VStr "unknown"]>
  (<["photos" := VNull]> (<["last_known_location" := VNull]>
  (<["owner_id" := VNull]> (<["status" := VNull]> ∅)))))))))).

(** ** The diagnostic endpoint

    What [test_database] sees of [database.db]: whether the handle has
    a [name] attribute (reading it does not raise, so the outer
    [except] of the handler has nothing to catch), and what
    [list_collection_names()] returns or raises. *)
Record Database : Type := mkDatabase {
  name_attr : option value;
  collection_names : Except (list string)
}.

(** Strings are UTF-8: a character is a byte that is not a
    continuation byte ([10xxxxxx]) with the continuation bytes that
    follow it.  [take_chars n s] is the slice [s[:n]]. *)
Definition is_continuation (c : ascii) : bool :=
  (128 <=? N_of_ascii c)%N && (N_of_ascii c <? 192)%N.

Fixpoint take_chars (n : nat) (s : string) : string :=
  match s with
  | EmptyString => EmptyString
  | String c s' =>
      if is_continuation c then String c (take_chars n s')
      else match n with
           | O => EmptyString
           | S n' => String c (take_chars n' s')
           end
  end.

Fixpoint char_count (s : string) : nat :=
  match s with
  | EmptyString => O
  | String c s' => if is_continuation c then char_count s' else S (char_count s')
  end.

(** [os.getenv(name)] as a truth value: set and not empty. *)
Definition env_set (v : option string) : bool :=
  match v with
  | Some s => negb (String.eqb s "")
  | None => false
  end.

(** [GET /test] *)
Definition test_database (db : option Database) (getenv : string -> option string)
    : gmap string value :=
  let response : gmap string value :=
    <["backend" := VStr "✅ Running"]>
      (<["database" := VStr "❌ Not Available"]>
      (<["database_url" := VNull]>
      (<["database_name" := VNull]>
      (<["connection_status" := VStr "Not Connected"]>
      (<["collections" := VList []]> ∅))))) in
  let response :=
    match db with
    | Some handle =>
        let response := <["database" := VStr "✅ Available"]> response in
        let response := <["database_url" := VStr "✅ Configured"]> response in
        let response :=
          <["database_name" :=
              match name_attr handle with
              | Some n => n
              | None => VStr "✅ Connected"
              end]> response in
        let response := <["connection_status" := VStr "Connected"]> response in
        match collection_names handle with
        | Return collections =>
            let response :=
              <["collections" := VList (map VStr (firstn 10 collections))]> response in
            <["database" := VStr "✅ Connected & Working"]> response
        | Raise e =>
            <["database" := VStr ("⚠️ Connected but Error: " ++ take_chars 80 e)]> response
        end
    | None => <["database" := VStr "⚠️ Available but not initialized"]> response
    end in
  let response :=
    <["database_url" :=
        VStr (if env_set (getenv "DATABASE_URL") then "✅ Set" else "❌ Not Set")]>
      response in
  <["database_name" :=
      VStr (if env_set (getenv "DATABASE_NAME") then "✅ Set" else "❌ Not Set")]>
    response.

(** ** More sample data *)

(** A cursor for filters on one string field: the matching documents
    of the collection, each with its [_id], by ascending date under
    the sort key. *)
Definition sample_find (s : Store) (c : Coll) (f : gmap string value) (k : string)
    : list (gmap string value) :=
  match map_to_list f with
  | [(key, VStr v)] =>
      sort_by (fun d : gmap string value => match get k d with VDate t => t | _ => 0%Z end)
        (List.filter (fun d : gmap string value => str_is (get key d) v)
           (map (fun nd : N * gmap string value => <["_id" := VOid nd.1]> nd.2)
                (map_to_list (collection c s))))
  | _ => []
  end.

(** A listing that returns nothing. *)
Definition no_documents (s : Store) (c : Coll) (f : gmap string value) (limit : Z)
    : list (gmap string value) := [].

(** An id of [x1_id]'s vehicle written in upper case, and a world where
    one event names the vehicle in lower case and one in upper case. *)
Definition af_id : string := "00000000000000000000000a".
Definition AF_id : string := "00000000000000000000000A".

Definition two_events_world : World :=
  mkWorld
    (mkStore (<[10%N := <["vin" := VStr "X1"]> ∅]> ∅)
             (<[11%N := event_about af_id "note"]>
                (<[12%N := event_about AF_id "note"]> ∅))
             ∅ 13) 0.

(** A stored document with its [_id], a reference to another document
    and a field named [id] of its own. *)
Definition stored_sample : gmap string value :=
  <["_id" := VOid 10]> (<["id" := VStr "mine"]> (<["owner" := VOid 11]>
    (<["nested" := VDict (<["ref" := VOid 12]> ∅)]> ∅))).

(** What [_serialize] makes of [stored_sample]. *)
Definition served_sample : gmap string value :=
  <["id" := VStr "00000000000000000000000a"]>
    (<["owner" := VStr "00000000000000000000000b"]>
       (<["nested" := VDict (<["ref" := VOid 12]> ∅)]> ∅)).

(** A store that is down. *)
Definition store_down (s : Store) (c : Coll) (d : gmap string value) : option string :=
  Some "store unavailable".

(** A vehicle sent with a key that is not a field, and its model. *)
Definition vehicle_with_color : gmap string value :=
  <["vin" := VStr "X1"]> (<["color" := VStr "red"]> ∅).

Definition vehicle_with_color_model : gmap string value :=
  <["vin" := VStr "X1"]> (<["make" := VNull]> (<["model" := VNull]>
  (<["year" := VNull]> (<["engine_condition" := VStr "unknown"]>
  (<["body_condition" := VStr "unknown"]> (<["damage_level" := VStr "unknown"]>
  (<["photos" := VNull]> (<["last_known_location" := VNull]>
  (<["owner_id" := VNull]> (<["status" := VStr "unknown"]> ∅)))))))))).

(** A dismantling event that names no vehicle. *)
Definition dismantling_nowhere : gmap string value :=
  <["event_type" := VStr "dismantling"]> ∅.


(** A batch whose timestamps do not compare: the first is offset-naive,
    the second offset-aware. *)
Definition naive_and_aware_batch : SyncEnvelope :=
  mkEnvelope
    [ mkMutation "createVehicle" (<["vin" := VStr "X1"]> ∅) "client-1" (Naive 1);
      mkMutation "registerPart" (<["name" := VStr "door"]> ∅) "client-2" (Aware 2) ].

(** An unknown op with an offset-naive timestamp beside a vehicle with
    an offset-aware one. *)
Definition foo_naive_batch : SyncEnvelope :=
  mkEnvelope
    [ mkMutation "foo" ∅ "client-1" (Naive 1);
      mkMutation "createVehicle" (<["vin" := VStr "X1"]> ∅) "client-2" (Aware 2) ].



(** 24 characters of which the last two are spaces: [bytes.fromhex]
    reads eleven bytes. *)
Definition padded_id : string := "0000000000000000000000  ".

(** A batch that creates one vehicle. *)
Definition x1_batch : SyncEnvelope :=
  mkEnvelope [ mkMutation "createVehicle" (<["vin" := VStr "X1"]> ∅) "client-1" (Aware 1) ].

(** * The server *)

Section Server.

(** The server clock: [clock i] is what the [i]-th call of
    [datetime.now(timezone.utc)] returns. *)
Variable clock : nat -> Z.

(** When the store refuses a document, with the message of the
    exception [create_document] raises. *)
Variable insert_fault : Store -> Coll -> gmap string value -> option string.

(** pydantic's reading of a datetime string. *)
Variable parse_iso : string -> option Z.

(** Python's [str] on values other than strings and ObjectIds. *)
Variable py_str : value -> string.

(** ** Validation *)

(** A number given for a datetime is Unix time, in seconds, or in
    milliseconds when it is large. *)
Definition unix_micros (z : Z) : Z :=
  if (Z.abs z >? 20000000000)%Z then (z * 1000)%Z else (z * 1000000)%Z.

(** The value a field of type [t] takes from the JSON value [v], if
    [v] conforms.  Only [Optional] accepts [null].  Of pydantic's
    conversions between types only those of a number or a string to a
    datetime and of an integer to a float are modelled: a numeric
    string, a boolean or a float without fraction given for a number
    is taken as not conforming, a datetime is not held to the years 1
    to 9999, and an integer given for a float stays exact. *)
Fixpoint conforms (t : ftype) (v : value) : option value :=
  match t with
  | TStr => match v with VStr _ => Some v | _ => None end
  | TInt => match v with VInt _ => Some v | _ => None end
  | TFloat =>
      match v with
      | VFloat _ _ => Some v
      | VInt z => Some (VFloat z 0)
      | _ => None
      end
  | TDatetime =>
      match v with
      | VStr s => option_map VDate (parse_iso s)
      | VInt z => Some (VDate (unix_micros z))
      | _ => None
      end
  | TDict => match v with VDict _ => Some v | _ => None end
  | TList t' =>
      match v with
      | VList l => option_map VList (mapM (conforms t') l)
      | _ => None
      end
  | TOptional t' =>
      match v with
      | VNull => Some VNull
      | _ => conforms t' v
      end
  end.

Definition validate_field (f : field) (raw : doc) : verror + value :=
  match raw !! fname f with
  | Some v =>
      match conforms (ftyp f) v with
      | Some v' => inr v'
      | None => inl (VError (fname f) "Input should be a valid value")
      end
  | None =>
      match fdefault f with
      | Some d => inr d
      | None => inl (VError (fname f) "Field required")
      end
  end.

Fixpoint validate_fields (schema : list field) (raw : doc) : list verror * doc :=
  match schema with
  | [] => ([], ∅)
  | f :: rest =>
      let '(errs, model) := validate_fields rest raw in
      match validate_field f raw with
      | inl e => (e :: errs, model)
      | inr v => (errs, <[fname f := v]> model)
      end
  end.

Definition model_validate (schema : list field) (raw : doc) : list verror + doc :=
  match validate_fields schema raw with
  | ([], model) => inr model
  | (errs, _) => inl errs
  end.

(** ** Store and clock operations *)

Definition now : M Z :=
  fun w => (Return (clock (ticks w)), mkWorld (db w) (S (ticks w))).

(** Modelled from the spec: [create_document(collection, data)] is
    [insert(collection, doc) -> id]; it raises when the store refuses
    the document and otherwise returns the new id as a string. *)
Definition create_document (c : Coll) (d : doc) : M string :=
  fun w =>
    match insert_fault (db w) c d with
    | Some e => (Raise e, w)
    | None =>
        (Return (oid_str (next_oid (db w))),
         mkWorld (store_insert c d (db w)) (ticks w))
    end.

(** Modelled from the spec: [db[c].find_one({"_id": oid})] is
    [find_one(collection, id) -> doc | absent]; the document comes
    back with its [_id].  An id of fewer than twelve bytes is the id
    of no document. *)
Definition find_one (c : Coll) (oid : list N) : M (option doc) :=
  fun w =>
    (Return match oid_number oid with
            | Some n => option_map (fun d : doc => <["_id" := VOid n]> d)
                                   (collection c (db w) !! n)
            | None => None
            end, w).

(** Modelled from the spec: [db[c].update_one({"_id": oid}, {"$set":
    patch})] is [update(collection, id, patch)]. *)
Definition update_one (c : Coll) (oid : list N) (patch : doc) : M unit :=
  fun w =>
    (Return tt,
     mkWorld match oid_number oid with
             | Some n => store_update c n patch (db w)
             | None => db w
             end (ticks w)).

(** [ObjectId(v)] raises [InvalidId] on a string that [bson] does not
    read as an id. *)
Definition to_ObjectId (v : value) : M (list N) :=
  match v with
  | VStr s =>
      match ObjectId s with
      | Some b => ret b
      | None => raise "InvalidId: not a 12-byte input or a 24-character hex string"
      end
  | VOid n => ret (oid_bytes n)
  | _ => raise "TypeError: id must be an instance of (bytes, str, ObjectId)"
  end.

Definition str_of (v : value) : string :=
  match v with
  | VStr s => s
  | VOid n => oid_str n
  | _ => py_str v
  end.

(** [_serialize(doc)] *)
Definition _serialize (found : option doc) : option doc :=
  match found with
  | None => None
  | Some d0 =>
      if negb (truthy (VDict d0)) then Some d0
      else
        let d :=
          match d0 !! "_id" with
          | Some v => <["id" := VStr (str_of v)]> (delete "_id" d0)
          | None => d0
          end in
        Some ((fun v => match v with VOid n => VStr (oid_str n) | _ => v end) <$> d)
  end.

(** ** Handlers *)

(** [POST /api/vehicles] *)
Definition create_vehicle (payload : doc) : M (option doc) :=
  let data := model_dump_exclude_none payload in
  inserted_id <- create_document vehicle data ;;
  oid <- to_ObjectId (VStr inserted_id) ;;
  found <- find_one vehicle oid ;;
  ret (_serialize found).

(** The rule engine of [log_event]: its guard, and the [$set] it sends
    for the event document [data] at time [t]. *)
Definition rule_applies (data : doc) : bool :=
  truthy (get "vehicle_id" data)
  && str_in (get "event_type" data) ["dismantling"; "scrap"].

Definition derived_status (event_type : value) : string :=
  if str_is event_type "dismantling" then "dismantled" else "scrapped".

Definition rule_patch (data : doc) (t : Z) : doc :=
  <["status" := VStr (derived_status (get "event_type" data))]>
    (<["updated_at" := VDate t]> ∅).

(** [POST /api/events] *)
Definition log_event (payload : doc) : M (option doc) :=
  let data := model_dump_exclude_none payload in
  t <- now ;;
  let data := setdefault "occurred_at" (VDate t) data in
  inserted_id <- create_document event data ;;
  oid <- to_ObjectId (VStr inserted_id) ;;
  ev <- find_one event oid ;;
  _ <- (if rule_applies data then
          vid <- to_ObjectId (get "vehicle_id" data) ;;
          t' <- now ;;
          update_one vehicle vid (rule_patch data t')
        else ret tt) ;;
  ret (_serialize ev).

(** The document [log_event] hands to the store. *)
Definition event_data (payload : doc) (w : World) : doc :=
  setdefault "occurred_at" (VDate (clock (ticks w))) (model_dump_exclude_none payload).

(** [POST /api/parts] *)
Definition register_part (payload : doc) : M (option doc) :=
  let data := model_dump_exclude_none payload in
  inserted_id <- create_document part data ;;
  oid <- to_ObjectId (VStr inserted_id) ;;
  found <- find_one part oid ;;
  ret (_serialize found).

(** The entries of the result list of [sync]. *)
Definition result_ok (op : string) (inserted_id : string) : doc :=
  <["op" := VStr op]> (<["status" := VStr "ok"]> (<["id" := VStr inserted_id]> ∅)).

Definition result_ignored (op : string) : doc :=
  <["op" := VStr op]>
    (<["status" := VStr "ignored"]> (<["reason" := VStr "unknown op"]> ∅)).

Definition result_error (op : string) (e : string) : doc :=
  <["op" := VStr op]> (<["status" := VStr "error"]> (<["error" := VStr e]> ∅)).

(** The body of the [try] in the loop of [sync]. *)
Definition dispatch (m : Mutation) : M doc :=
  if String.eqb (op m) "createVehicle" then
    inserted_id <- create_document vehicle (data m) ;;
    ret (result_ok (op m) inserted_id)
  else if String.eqb (op m) "logEvent" then
    t <- now ;;
    let data := setdefault "occurred_at" (VDate t) (data m) in
    inserted_id <- create_document event data ;;
    ret (result_ok (op m) inserted_id)
  else if String.eqb (op m) "registerPart" then
    inserted_id <- create_document part (data m) ;;
    ret (result_ok (op m) inserted_id)
  else
    ret (result_ignored (op m)).

(** One turn of the loop: the [try] with its [except Exception]. *)
Definition apply_mutation (m : Mutation) : M doc :=
  try_except (dispatch m) (fun e => ret (result_error (op m) e)).

(** The loop, with [results] as built so far. *)
Fixpoint sync_loop (ms : list Mutation) (results : list doc) : M (list doc) :=
  match ms with
  | [] => ret results
  | m :: ms' =>
      r <- apply_mutation m ;;
      sync_loop ms' (results ++ [r])
  end.

Record SyncResponse : Type := mkSyncResponse {
  results : list (gmap string value);
  server_time : Z
}.

(** [POST /api/sync]: [sorted] runs before the loop and outside its
    [try], so what it raises ends the request. *)
Definition sync (envelope : SyncEnvelope) : M SyncResponse :=
  ms <- lift (sorted client_timestamp (mutations envelope)) ;;
  results <- sync_loop ms [] ;;
  t <- now ;;
  ret (mkSyncResponse results t).

(** ** The endpoints on a JSON body

    FastAPI validates the body against the handler's model; a body
    that fails is answered with 422 and the list of offending fields,
    and the handler does not run. *)
Inductive Response : Type :=
| R200 (body : option (gmap string value))
| R422 (errs : list verror).

Definition endpoint (schema : list field) (handler : doc -> M (option doc))
    (raw : doc) : M Response :=
  match model_validate schema raw with
  | inl errs => ret (R422 errs)
  | inr payload => body <- handler payload ;; ret (R200 body)
  end.

Definition post_vehicles : doc -> M Response :=
  endpoint CreateVehiclePayload create_vehicle.
Definition post_events : doc -> M Response :=
  endpoint EventPayload log_event.
Definition post_parts : doc -> M Response :=
  endpoint PartPayload register_part.

(** What one turn of the loop is about to insert, if anything: the
    collection, the document, and the world in which the insert runs
    (for [logEvent], after the clock was read for [setdefault]). *)
Definition staged (m : Mutation) (w : World) : option (Coll * gmap string value * World) :=
  if String.eqb (op m) "createVehicle" then Some (vehicle, data m, w)
  else if String.eqb (op m) "logEvent" then
    Some (event, setdefault "occurred_at" (VDate (clock (ticks w))) (data m),
          mkWorld (db w) (S (ticks w)))
  else if String.eqb (op m) "registerPart" then Some (part, data m, w)
  else None.

(** ** Runs of the loop

    [Steps w ms rs w'] : starting in [w], the loop takes the mutations
    [ms] one after the other, in list order, each turn returning its
    entry of [rs], and ends in [w']. *)
Inductive Steps : World -> list Mutation -> list (gmap string value) -> World -> Prop :=
| Steps_nil w : Steps w [] [] w
| Steps_cons w m r w1 ms rs w2 :
    apply_mutation m w = (Return r, w1) ->
    Steps w1 ms rs w2 ->
    Steps w (m :: ms) (r :: rs) w2.


(** ** Listing and history *)

(** [get_documents(collection, filter, limit)] of the store adapter,
    which is not among the sources: it is taken as given. *)
Variable get_documents : Store -> Coll -> gmap string value -> Z -> list (gmap string value).

(** The cursor [db[c].find(filter).sort(key, 1)], as the list of the
    documents it yields; taken as given. *)
Variable find_sorted : Store -> Coll -> gmap string value -> string -> list (gmap string value).

(** The answers of the two GET endpoints: the list, 400 for an
    [HTTPException], 422 for a query parameter out of bounds. *)
Inductive ListResponse : Type :=
| L200 (docs : list (option (gmap string value)))
| L400 (detail : string)
| L422 (errs : list verror).

(** [[_serialize(d) for d in docs]] *)
Definition serialize_all (docs : list (gmap string value)) : list (option (gmap string value)) :=
  map (fun d => _serialize (Some d)) docs.

(** [filt = {}; if status: filt["status"] = status] *)
Definition status_filter (status : option string) : gmap string value :=
  match status with
  | Some s => if truthy (VStr s) then <["status" := VStr s]> ∅ else ∅
  | None => ∅
  end.

(** The handler of [GET /api/vehicles]. *)
Definition list_vehicles (status : option string) (limit : Z) : M (list (option doc)) :=
  fun w =>
    (Return (serialize_all (get_documents (db w) vehicle (status_filter status) limit)), w).

(** [GET /api/vehicles] with [limit: int = Query(50, ge=1, le=200)]. *)
Definition get_vehicles (status : option string) (limit : option Z) : M ListResponse :=
  match limit with
  | None => docs <- list_vehicles status 50 ;; ret (L200 docs)
  | Some l =>
      if (l <? 1)%Z then
        ret (L422 [VError "limit" "Input should be greater than or equal to 1"])
      else if (200 <? l)%Z then
        ret (L422 [VError "limit" "Input should be less than or equal to 200"])
      else docs <- list_vehicles status l ;; ret (L200 docs)
  end.

(** [GET /api/vehicles/{vehicle_id}/history] *)
Definition get_vehicle_history (vehicle_id : string) : M ListResponse :=
  match ObjectId vehicle_id with
  | None => ret (L400 "Invalid vehicle id")
  | Some vids =>
      fun w =>
        (Return (L200 (serialize_all
                         (find_sorted (db w) event
                            (<["vehicle_id" := VStr (hexlify vids)]> ∅) "occurred_at"))),
         w)
  end.

(** ** More on the entries of [sync] *)

Definition is_ok (r : doc) : bool := str_is (get "status" r) "ok".

(** An ok entry names the document that the mutation has put in the
    store [final]: the data as sent, with [occurred_at] filled in for
    an event that came without. *)
Definition stored_as_sent (final : World) (m : Mutation) (r : doc) : Prop :=
  r !! "status" = Some (VStr "ok") ->
  exists n : N,
    r !! "id" = Some (VStr (oid_str n)) /\
    ((op m = "createVehicle" /\ vehicles (db final) !! n = Some (data m))
     \/ (op m = "registerPart" /\ parts (db final) !! n = Some (data m))
     \/ (op m = "logEvent" /\
         exists t, events (db final) !! n
                   = Some (setdefault "occurred_at" (VDate t) (data m)))).

(** A mutation with a known op is applied: its entry is the ok entry
    and names the stored document, unless the store refused the
    document that the turn staged for it, and then the entry is the
    error entry with the store's message. *)
Definition applied_or_refused (final : World) (m : Mutation) (r : doc) : Prop :=
  known_op (op m) = true ->
  (r !! "status" = Some (VStr "ok") /\ stored_as_sent final m r)
  \/ (exists (e : string) (w0 wt : World) (c : Coll) (d : doc),
        staged m w0 = Some (c, d, wt) /\
        insert_fault (db wt) c d = Some e /\
        r = result_error (op m) e).

(** The keys that [sorted] compares. *)
Definition timestamps (envelope : SyncEnvelope) : list datetime :=
  map client_timestamp (mutations envelope).

(** The number of logEvent mutations of a batch. *)
Definition event_count (envelope : SyncEnvelope) : nat :=
  length (List.filter (fun m => String.eqb (op m) "logEvent") (mutations envelope)).

(** * Facts *)

(** ** ObjectIds print and read back *)

Lemma hex_val_digit (d : N) : (d < 16)%N -> hex_val (hex_digit d) = Some d.
Proof.
  intros Hd.
  assert (Hn : (N.to_nat d < 16)%nat) by lia.
  rewrite <- (N2Nat.id d).
  revert Hn. generalize (N.to_nat d) as k. intros k Hk.
  do 16 (destruct k as [|k]; [reflexivity|]).
  lia.
Qed.

Lemma hex_render_length (k : nat) : forall n acc,
  String.length (hex_render k n acc) = (k + String.length acc)%nat.
Proof.
  induction k as [|k IH]; intros n acc; simpl; [reflexivity|].
  rewrite IH. simpl. lia.
Qed.

Lemma hex_digit_no_space (d : N) : (d < 16)%N -> is_space (hex_digit d) = false.
Proof.
  intros Hd.
  assert (Hn : (N.to_nat d < 16)%nat) by lia.
  rewrite <- (N2Nat.id d).
  revert Hn. generalize (N.to_nat d) as k. intros k Hk.
  do 16 (destruct k as [|k]; [reflexivity|]).
  lia.
Qed.

Lemma fromhex_render (k : nat) : forall n acc bs,
  fromhex acc = Some bs ->
  fromhex (hex_render (k + k) n acc) = Some (be_bytes k n bs).
Proof.
  induction k as [|k IH]; intros n acc bs Hacc; [exact Hacc|].
  rewrite Nat.add_succ_r. cbn [Nat.add hex_render be_bytes].
  rewrite (IH _ _ ((n mod 256)%N :: bs)).
  - now rewrite N.Div0.div_div.
  - cbn [fromhex].
    rewrite !hex_digit_no_space, !hex_val_digit, Hacc by (apply N.mod_lt; lia).
    do 2 f_equal.
    change 256%N with (16 * 16)%N.
    rewrite (N.Div0.mod_mul_r n 16 16). lia.
Qed.

Lemma ObjectId_oid_str (n : N) : ObjectId (oid_str n) = Some (oid_bytes n).
Proof.
  unfold ObjectId, oid_str.
  rewrite hex_render_length. simpl Nat.eqb. cbv iota.
  now apply (fromhex_render 12 n "" []).
Qed.

Lemma be_bytes_length (k : nat) : forall n acc,
  length (be_bytes k n acc) = (k + length acc)%nat.
Proof.
  induction k as [|k IH]; intros n acc; simpl; [reflexivity|].
  rewrite IH. simpl. lia.
Qed.

Lemma be_bytes_value (k : nat) : forall n acc a,
  fold_left (fun acc x => (256 * acc + x)%N) (be_bytes k n acc) a
  = fold_left (fun acc x => (256 * acc + x)%N) acc
      (a * 256 ^ N.of_nat k + n mod 256 ^ N.of_nat k)%N.
Proof.
  induction k as [|k IH]; intros n acc a.
  - simpl. rewrite N.mod_1_r. f_equal. lia.
  - cbn [be_bytes]. rewrite IH. cbn [fold_left].
    f_equal.
    rewrite Nat2N.inj_succ, N.pow_succ_r'.
    rewrite (N.Div0.mod_mul_r n 256 (256 ^ N.of_nat k)).
    lia.
Qed.

Lemma oid_number_bytes (n : N) : (n < 2 ^ 96)%N -> oid_number (oid_bytes n) = Some n.
Proof.
  intros Hn. unfold oid_number, oid_bytes.
  rewrite be_bytes_length. simpl Nat.eqb. cbv iota.
  rewrite be_bytes_value. cbn [fold_left].
  f_equal. change (256 ^ N.of_nat 12)%N with (2 ^ 96)%N.
  rewrite N.mod_small by exact Hn. lia.
Qed.

(** ** The sort on integer keys *)

Section SortByFacts.
Context {A : Type} (key : A -> Z).

Lemma insert_by_perm (x : A) (l : list A) :
  Permutation (insert_by key x l) (x :: l).
Proof.
  induction l as [|y l IH]; simpl; [reflexivity|].
  destruct (key x <=? key y)%Z; [reflexivity|].
  rewrite IH. apply perm_swap.
Qed.

Lemma sort_by_perm (l : list A) : Permutation (sort_by key l) l.
Proof.
  induction l as [|x l IH]; simpl; [reflexivity|].
  rewrite insert_by_perm. now rewrite IH.
Qed.

Lemma sort_by_length (l : list A) : length (sort_by key l) = length l.
Proof. apply Permutation_length, sort_by_perm. Qed.

Lemma insert_by_ascending (x : A) (l : list A) :
  StronglySorted (key_le key) l -> StronglySorted (key_le key) (insert_by key x l).
Proof.
  induction 1 as [|y l Hl IH Hy]; simpl.
  - constructor; constructor.
  - destruct (key x <=? key y)%Z eqn:E.
    + apply Z.leb_le in E. constructor.
      * now constructor.
      * constructor; [exact E|].
        eapply Forall_impl; [exact Hy|].
        intros z Hz. unfold key_le in *. lia.
    + apply Z.leb_gt in E. constructor; [exact IH|].
      eapply Permutation_Forall.
      * symmetry. apply insert_by_perm.
      * constructor; [unfold key_le; lia | exact Hy].
Qed.

Lemma sort_by_ascending (l : list A) : StronglySorted (key_le key) (sort_by key l).
Proof.
  induction l as [|x l IH]; simpl; [constructor|].
  now apply insert_by_ascending.
Qed.

(** Stability: the entries with a given key come out in the order in
    which they went in. *)
Lemma insert_by_stable (t : Z) (x : A) (l : list A) :
  List.filter (fun a => (key a =? t)%Z) (insert_by key x l)
  = List.filter (fun a => (key a =? t)%Z) (x :: l).
Proof.
  induction l as [|y l IH]; [reflexivity|].
  cbn [insert_by].
  destruct (key x <=? key y)%Z eqn:E; [reflexivity|].
  apply Z.leb_gt in E.
  cbn [List.filter] in *. rewrite IH.
  destruct (key y =? t)%Z eqn:Ey, (key x =? t)%Z eqn:Ex; try reflexivity.
  apply Z.eqb_eq in Ey, Ex. lia.
Qed.

Lemma sort_by_stable (t : Z) (l : list A) :
  List.filter (fun a => (key a =? t)%Z) (sort_by key l)
  = List.filter (fun a => (key a =? t)%Z) l.
Proof.
  induction l as [|x l IH]; [reflexivity|].
  cbn [sort_by]. rewrite insert_by_stable.
  cbn [List.filter]. now rewrite IH.
Qed.

Lemma insert_by_least (x : A) (l : list A) :
  Forall (key_le key x) l -> insert_by key x l = x :: l.
Proof.
  destruct 1 as [|y l Hy _]; [reflexivity|].
  simpl. unfold key_le in Hy.
  destruct (key x <=? key y)%Z eqn:E; [reflexivity|].
  apply Z.leb_gt in E. lia.
Qed.

Lemma filter_insert_by (p : A -> bool) (x : A) (l : list A) :
  StronglySorted (key_le key) l ->
  List.filter p (insert_by key x l)
  = if p x then insert_by key x (List.filter p l) else List.filter p l.
Proof.
  induction 1 as [|y l Hl IH Hy]; [simpl; now destruct (p x)|].
  cbn [insert_by].
  destruct (key x <=? key y)%Z eqn:E.
  - apply Z.leb_le in E.
    change (List.filter p (x :: y :: l))
      with (if p x then x :: List.filter p (y :: l) else List.filter p (y :: l)).
    destruct (p x); [|reflexivity].
    symmetry. apply insert_by_least.
    assert (Hall : Forall (key_le key x) (y :: l)).
    { constructor; [exact E|].
      eapply Forall_impl; [exact Hy|].
      unfold key_le. intros z Hz. lia. }
    apply List.Forall_forall. intros z Hz.
    apply List.filter_In in Hz as [Hz _].
    rewrite List.Forall_forall in Hall. now apply Hall.
  - cbn [List.filter]. rewrite IH.
    destruct (p y), (p x); try reflexivity.
    cbn [insert_by]. now rewrite E.
Qed.

Lemma sort_by_filter (p : A -> bool) (l : list A) :
  sort_by key (List.filter p l) = List.filter p (sort_by key l).
Proof.
  induction l as [|x l IH]; [reflexivity|].
  cbn [sort_by List.filter].
  rewrite filter_insert_by by apply sort_by_ascending.
  destruct (p x); [cbn [sort_by]; now rewrite IH | exact IH].
Qed.

End SortByFacts.

(** ** [sorted] on timestamps

    On timestamps of one kind [sorted] is the sort on their readings;
    on a list that has both kinds it raises. *)

Lemma datetime_lt_uniform (k : bool) (a b : datetime) :
  is_aware a = k -> is_aware b = k ->
  datetime_lt a b = Return (instant a <? instant b)%Z.
Proof. destruct a, b; cbn; intros <- Hb; try discriminate Hb; reflexivity. Qed.

Lemma datetime_lt_mixed (a b : datetime) :
  is_aware a <> is_aware b ->
  datetime_lt a b
  = Raise cannot_compare.
Proof. destruct a, b; cbn; intros H; try reflexivity; now contradiction H. Qed.

Lemma uniform_Forall (k : bool) (l : list Mutation) :
  uniform k (map client_timestamp l) = true
  <-> Forall (fun m => is_aware (client_timestamp m) = k) l.
Proof.
  unfold uniform. induction l as [|m l IH]; cbn [map forallb].
  - split; [constructor | reflexivity].
  - rewrite andb_true_iff, IH, Bool.eqb_true_iff. split.
    + intros [Hm Hl]. now constructor.
    + intros H. apply Forall_cons in H. exact H.
Qed.

Lemma comparable_kind (l : list Mutation) :
  comparable (map client_timestamp l) = true
  <-> exists k, Forall (fun m => is_aware (client_timestamp m) = k) l.
Proof.
  unfold comparable. rewrite orb_true_iff, !uniform_Forall. split.
  - intros [H|H]; eauto.
  - intros [[|] H]; [now left | now right].
Qed.

Lemma insert_sorted_uniform (k : bool) (x : Mutation) (l : list Mutation) :
  is_aware (client_timestamp x) = k ->
  Forall (fun m => is_aware (client_timestamp m) = k) l ->
  insert_sorted client_timestamp x l = Return (insert_by timestamp x l).
Proof.
  intros Hx Hl. induction Hl as [|y l Hy _ IH]; [reflexivity|].
  cbn [insert_sorted insert_by].
  rewrite (datetime_lt_uniform k) by assumption.
  fold (timestamp y). fold (timestamp x).
  rewrite Z.ltb_antisym.
  destruct (timestamp x <=? timestamp y)%Z; cbn [negb]; [reflexivity|].
  now rewrite IH.
Qed.

Lemma sorted_uniform (k : bool) (l : list Mutation) :
  Forall (fun m => is_aware (client_timestamp m) = k) l ->
  sorted client_timestamp l = Return (sort_by timestamp l).
Proof.
  induction 1 as [|x l Hx Hl IH]; [reflexivity|].
  cbn [sorted sort_by]. rewrite IH.
  apply (insert_sorted_uniform k); [exact Hx|].
  eapply Permutation_Forall; [symmetry; apply sort_by_perm | exact Hl].
Qed.

Lemma sorted_comparable (l : list Mutation) :
  comparable (map client_timestamp l) = true ->
  sorted client_timestamp l = Return (sort_by timestamp l).
Proof.
  intros H. apply comparable_kind in H as [k Hk]. now apply (sorted_uniform k).
Qed.

Lemma sorted_mixed (l : list Mutation) :
  comparable (map client_timestamp l) = false ->
  sorted client_timestamp l
  = Raise cannot_compare.
Proof.
  induction l as [|x l IH]; [discriminate|].
  intros Hc. cbn [sorted].
  destruct (comparable (map client_timestamp l)) eqn:Hl; [|now rewrite IH].
  rewrite (sorted_comparable _ Hl).
  apply comparable_kind in Hl as [k Hk].
  assert (Hx : is_aware (client_timestamp x) <> k).
  { intros Hx. enough (comparable (map client_timestamp (x :: l)) = true) by congruence.
    apply comparable_kind. exists k. now constructor. }
  destruct (sort_by timestamp l) as [|z s] eqn:Hs.
  - assert (Hnil : l = []).
    { apply length_zero_iff_nil. now rewrite <- (sort_by_length timestamp), Hs. }
    subst l. exfalso.
    enough (comparable (map client_timestamp [x]) = true) by congruence.
    apply comparable_kind. exists (is_aware (client_timestamp x)). now repeat constructor.
  - cbn [insert_sorted]. rewrite datetime_lt_mixed; [reflexivity|].
    assert (Hz : In z l).
    { eapply Permutation_in; [apply (sort_by_perm timestamp)|]. rewrite Hs. now left. }
    rewrite List.Forall_forall in Hk. rewrite (Hk _ Hz). congruence.
Qed.

Lemma comparable_perm (l1 l2 : list Mutation) :
  Permutation l1 l2 ->
  comparable (map client_timestamp l1) = comparable (map client_timestamp l2).
Proof.
  intros Hp.
  destruct (comparable (map client_timestamp l1)) eqn:H1,
           (comparable (map client_timestamp l2)) eqn:H2; try reflexivity.
  - apply comparable_kind in H1 as [k Hk].
    enough (comparable (map client_timestamp l2) = true) by congruence.
    apply comparable_kind. exists k. eapply Permutation_Forall; eassumption.
  - apply comparable_kind in H2 as [k Hk].
    enough (comparable (map client_timestamp l1) = true) by congruence.
    apply comparable_kind. exists k.
    eapply Permutation_Forall; [symmetry|]; eassumption.
Qed.

Lemma comparable_filter (p : Mutation -> bool) (l : list Mutation) :
  comparable (map client_timestamp l) = true ->
  comparable (map client_timestamp (List.filter p l)) = true.
Proof.
  rewrite !comparable_kind. intros [k Hk]. exists k.
  rewrite List.Forall_forall in Hk. apply List.Forall_forall.
  intros m Hm. apply List.filter_In in Hm as [Hm _]. now apply Hk.
Qed.

(** ** One turn of the loop *)

Ltac run_monad :=
  unfold try_except, bind, ret, raise, now, create_document, find_one, update_one.

(** A turn never raises: it returns the ignored, error or ok entry, as
    [staged] and the store decide. *)
Lemma apply_mutation_eq (m : Mutation) (w : World) :
  apply_mutation m w =
  match staged m w with
  | None => (Return (result_ignored (op m)), w)
  | Some (c, d, wt) =>
      match insert_fault (db wt) c d with
      | Some e => (Return (result_error (op m) e), wt)
      | None =>
          (Return (result_ok (op m) (oid_str (next_oid (db wt)))),
           mkWorld (store_insert c d (db wt)) (ticks wt))
      end
  end.
Proof.
  unfold apply_mutation, dispatch, staged.
  destruct (String.eqb (op m) "createVehicle");
    [run_monad; now destruct (insert_fault _ _ _)|].
  destruct (String.eqb (op m) "logEvent");
    [run_monad; cbn [db ticks]; now destruct (insert_fault _ _ _)|].
  destruct (String.eqb (op m) "registerPart");
    [run_monad; now destruct (insert_fault _ _ _)|].
  reflexivity.
Qed.

Lemma staged_known (m : Mutation) (w : World) :
  staged m w = None <-> known_op (op m) = false.
Proof.
  unfold staged, known_op. cbn [existsb].
  destruct (String.eqb (op m) "createVehicle"),
           (String.eqb (op m) "logEvent"),
           (String.eqb (op m) "registerPart"); cbn; split; congruence.
Qed.

Lemma apply_mutation_total (m : Mutation) (w : World) :
  exists r w1, apply_mutation m w = (Return r, w1).
Proof.
  rewrite apply_mutation_eq.
  destruct (staged m w) as [[[c d] wt]|]; [|eauto].
  destruct (insert_fault (db wt) c d); eauto.
Qed.

Lemma result_ok_outcome (m : Mutation) (i : string) :
  tagged_outcome m (result_ok (op m) i).
Proof.
  unfold tagged_outcome, result_ok. split; [reflexivity|].
  left. repeat split; eauto.
Qed.

Lemma result_ignored_outcome (m : Mutation) :
  tagged_outcome m (result_ignored (op m)).
Proof.
  unfold tagged_outcome, result_ignored. split; [reflexivity|].
  right; left. repeat split; eauto.
Qed.

Lemma result_error_outcome (m : Mutation) (e : string) :
  tagged_outcome m (result_error (op m) e).
Proof.
  unfold tagged_outcome, result_error. split; [reflexivity|].
  right; right. repeat split; eauto.
Qed.

Lemma apply_mutation_outcome (m : Mutation) (w : World) (r : doc) (w1 : World) :
  apply_mutation m w = (Return r, w1) -> tagged_outcome m r.
Proof.
  rewrite apply_mutation_eq.
  destruct (staged m w) as [[[c d] wt]|].
  - destruct (insert_fault (db wt) c d); intros [= <- _];
      [apply result_error_outcome | apply result_ok_outcome].
  - intros [= <- _]. apply result_ignored_outcome.
Qed.

(** ** Runs *)

Lemma Steps_exist (ms : list Mutation) : forall w, exists rs w', Steps w ms rs w'.
Proof.
  induction ms as [|m ms IH]; intros w.
  - exists [], w. constructor.
  - destruct (apply_mutation_total m w) as (r & w1 & Hr).
    destruct (IH w1) as (rs & w2 & Hrs).
    exists (r :: rs), w2. econstructor; eassumption.
Qed.

Lemma Steps_sync_loop (w : World) (ms : list Mutation) (rs : list doc) (w' : World) :
  Steps w ms rs w' ->
  forall acc, sync_loop ms acc w = (Return (acc ++ rs)%list, w').
Proof.
  induction 1 as [w|w m r w1 ms rs w2 Hm _ IH]; intros acc.
  - simpl. unfold ret. now rewrite app_nil_r.
  - cbn [sync_loop]. unfold bind at 1. rewrite Hm.
    rewrite IH. now rewrite <- app_assoc.
Qed.

Lemma Steps_length (w : World) (ms : list Mutation) (rs : list doc) (w' : World) :
  Steps w ms rs w' -> length rs = length ms.
Proof. induction 1; simpl; congruence. Qed.

Lemma Steps_outcomes (w : World) (ms : list Mutation) (rs : list doc) (w' : World) :
  Steps w ms rs w' -> Forall2 tagged_outcome ms rs.
Proof.
  induction 1 as [|w m r w1 ms rs w2 Hm _ IH]; constructor; [|exact IH].
  eapply apply_mutation_outcome, Hm.
Qed.

Lemma sync_run (envelope : SyncEnvelope) (w : World) (ms : list Mutation)
    (rs : list doc) (w1 : World) :
  sorted client_timestamp (mutations envelope) = Return ms ->
  Steps w ms rs w1 ->
  sync envelope w
  = (Return (mkSyncResponse rs (clock (ticks w1))), mkWorld (db w1) (S (ticks w1))).
Proof.
  intros Hs H. unfold sync. unfold bind at 1. unfold lift. rewrite Hs.
  unfold bind at 1.
  rewrite (Steps_sync_loop _ _ _ _ H []). reflexivity.
Qed.

(** A batch whose timestamps do not compare is refused before any
    mutation is looked at. *)
Lemma sync_refuses (envelope : SyncEnvelope) (w : World) :
  comparable (timestamps envelope) = false ->
  sync envelope w
  = (Raise cannot_compare, w).
Proof.
  intros Hc. unfold sync. unfold bind at 1. unfold lift.
  now rewrite (sorted_mixed _ Hc).
Qed.

(** A batch whose timestamps compare is sorted and run. *)
Lemma sync_runs (envelope : SyncEnvelope) (w : World) :
  comparable (timestamps envelope) = true ->
  exists rs w1,
    sorted client_timestamp (mutations envelope)
    = Return (sort_by timestamp (mutations envelope)) /\
    Steps w (sort_by timestamp (mutations envelope)) rs w1 /\
    sync envelope w
    = (Return (mkSyncResponse rs (clock (ticks w1))), mkWorld (db w1) (S (ticks w1))).
Proof.
  intros Hc. pose proof (sorted_comparable _ Hc) as Hs.
  destruct (Steps_exist (sort_by timestamp (mutations envelope)) w) as (rs & w1 & Hrun).
  exists rs, w1. split; [exact Hs|]. split; [exact Hrun|].
  now apply (sync_run _ _ _ _ _ Hs).
Qed.

Lemma apply_mutation_unknown (m : Mutation) (w : World) :
  known_op (op m) = false ->
  apply_mutation m w = (Return (result_ignored (op m)), w).
Proof.
  intros Hk. rewrite apply_mutation_eq.
  apply (staged_known m w) in Hk. now rewrite Hk.
Qed.

Lemma apply_mutation_known (m : Mutation) (w : World) (r : doc) (w1 : World) :
  known_op (op m) = true ->
  apply_mutation m w = (Return r, w1) -> is_ignored r = false.
Proof.
  intros Hk. rewrite apply_mutation_eq.
  destruct (staged m w) as [[[c d] wt]|] eqn:Hs.
  - destruct (insert_fault (db wt) c d); intros [= <- _]; reflexivity.
  - apply staged_known in Hs. congruence.
Qed.

(** Dropping the mutations with an unknown op from a run drops their
    ignored entries and changes nothing else. *)
Lemma Steps_without_unknown (w : World) (ms : list Mutation) (rs : list doc) (w' : World) :
  Steps w ms rs w' ->
  Steps w (List.filter (fun m => known_op (op m)) ms)
          (List.filter (fun r => negb (is_ignored r)) rs) w'.
Proof.
  induction 1 as [|w m r w1 ms rs w2 Hm _ IH]; [constructor|].
  cbn [List.filter].
  destruct (known_op (op m)) eqn:Hk.
  - rewrite (apply_mutation_known _ _ _ _ Hk Hm). cbn [negb].
    econstructor; eassumption.
  - rewrite (apply_mutation_unknown _ w Hk) in Hm.
    injection Hm as <- <-. exact IH.
Qed.

(** ** What a run stores *)

Lemma collection_insert (c : Coll) (d : doc) (s : Store) :
  collection c (store_insert c d s) = <[next_oid s := d]> (collection c s).
Proof. now destruct c. Qed.

(** A turn of the loop only adds documents, under fresh ids, and only
    moves the clock forward. *)
Lemma apply_mutation_keeps (m : Mutation) (w : World) (r : doc) (w1 : World) :
  apply_mutation m w = (Return r, w1) ->
  (ticks w <= ticks w1)%nat /\
  (next_oid (db w) <= next_oid (db w1))%N /\
  forall (c : Coll) (k : N),
    (k < next_oid (db w))%N -> collection c (db w1) !! k = collection c (db w) !! k.
Proof.
  rewrite apply_mutation_eq. unfold staged.
  destruct (String.eqb (op m) "createVehicle");
    [|destruct (String.eqb (op m) "logEvent");
      [|destruct (String.eqb (op m) "registerPart")]];
    cbn [db ticks];
    try (destruct (insert_fault _ _ _));
    intros [= _ <-]; cbn [db ticks];
    (split; [lia|]); (split; [cbn; lia|]);
    intros c k Hk; try reflexivity;
    destruct c; cbn; try reflexivity;
    apply lookup_insert_ne; lia.
Qed.

Lemma Steps_keeps (w : World) (ms : list Mutation) (rs : list doc) (w' : World) :
  Steps w ms rs w' ->
  (ticks w <= ticks w')%nat /\
  (next_oid (db w) <= next_oid (db w'))%N /\
  forall (c : Coll) (k : N),
    (k < next_oid (db w))%N -> collection c (db w') !! k = collection c (db w) !! k.
Proof.
  induction 1 as [|w m r w1 ms rs w2 Hm _ IH].
  - repeat split; try lia.
  - apply apply_mutation_keeps in Hm as (Ht & Hn & Hk).
    destruct IH as (Ht' & Hn' & Hk').
    split; [lia|]. split; [lia|].
    intros c k Hlt. rewrite Hk' by lia. now apply Hk.
Qed.

Lemma apply_mutation_ok (m : Mutation) (w : World) (r : doc) (w1 : World) :
  apply_mutation m w = (Return r, w1) ->
  r !! "status" = Some (VStr "ok") ->
  exists c d wt,
    staged m w = Some (c, d, wt) /\
    insert_fault (db wt) c d = None /\
    r = result_ok (op m) (oid_str (next_oid (db w))) /\
    db wt = db w /\
    w1 = mkWorld (store_insert c d (db w)) (ticks wt).
Proof.
  rewrite apply_mutation_eq.
  destruct (staged m w) as [[[c d] wt]|] eqn:Hs.
  - assert (Hdb : db wt = db w).
    { unfold staged in Hs.
      destruct (String.eqb (op m) "createVehicle"); [now injection Hs as _ _ <-|].
      destruct (String.eqb (op m) "logEvent"); [now injection Hs as _ _ <-|].
      destruct (String.eqb (op m) "registerPart"); [now injection Hs as _ _ <-|].
      discriminate. }
    destruct (insert_fault (db wt) c d) eqn:Hf; intros [= <- <-]; [discriminate|].
    intros _. exists c, d, wt. rewrite Hdb. repeat split; congruence.
  - intros [= <- _]. discriminate.
Qed.

Lemma staged_cases (m : Mutation) (w : World) (c : Coll) (d : doc) (wt : World) :
  staged m w = Some (c, d, wt) ->
  (op m = "createVehicle" /\ c = vehicle /\ d = data m)
  \/ (op m = "registerPart" /\ c = part /\ d = data m)
  \/ (op m = "logEvent" /\ c = event
      /\ d = setdefault "occurred_at" (VDate (clock (ticks w))) (data m)).
Proof.
  unfold staged.
  destruct (String.eqb (op m) "createVehicle") eqn:E1.
  { apply String.eqb_eq in E1. intros [= <- <- _]. now left. }
  destruct (String.eqb (op m) "logEvent") eqn:E2.
  { apply String.eqb_eq in E2. intros [= <- <- _]. right; right. now repeat split. }
  destruct (String.eqb (op m) "registerPart") eqn:E3; [|discriminate].
  apply String.eqb_eq in E3. intros [= <- <- _]. right; left. now repeat split.
Qed.

Lemma Steps_stored_as_sent (w : World) (ms : list Mutation) (rs : list doc) (w' : World) :
  Steps w ms rs w' -> Forall2 (stored_as_sent w') ms rs.
Proof.
  induction 1 as [|w m r w1 ms rs w2 Hm Hrest IH]; constructor; [|exact IH].
  intros Hstatus.
  destruct (apply_mutation_ok _ _ _ _ Hm Hstatus) as (c & d & wt & Hs & _ & -> & _ & ->).
  destruct (Steps_keeps _ _ _ _ Hrest) as (_ & _ & Hkept).
  exists (next_oid (db w)). split; [reflexivity|].
  assert (Hat : collection c (db w2) !! next_oid (db w) = Some d).
  { rewrite Hkept by (cbn; lia). cbn [db].
    rewrite collection_insert. apply lookup_insert_eq. }
  destruct (staged_cases _ _ _ _ _ Hs) as [(Hop & -> & ->)|[(Hop & -> & ->)|(Hop & -> & ->)]].
  - left. now split.
  - right; left. now split.
  - right; right. split; [exact Hop|]. eauto.
Qed.

Lemma Steps_applied_or_refused (w : World) (ms : list Mutation) (rs : list doc)
    (w' : World) :
  Steps w ms rs w' -> Forall2 (applied_or_refused w') ms rs.
Proof.
  intros Hrun. pose proof (Steps_stored_as_sent _ _ _ _ Hrun) as Hstored.
  induction Hrun as [|w m r w1 ms rs w2 Hm Hrest IH]; [constructor|].
  apply Forall2_cons_1 in Hstored as [Hhead Htail].
  constructor; [|exact (IH Htail)].
  intros Hk. rewrite apply_mutation_eq in Hm.
  destruct (staged m w) as [[[c d] wt]|] eqn:Hs;
    [|apply staged_known in Hs; congruence].
  destruct (insert_fault (db wt) c d) as [e|] eqn:Hf; injection Hm as <- _.
  - right. exists e, w, wt, c, d. now repeat split.
  - left. split; [reflexivity | exact Hhead].
Qed.

(** ** The reconciler *)

(** C3: the mutations of a batch are applied in ascending order of
    [client_timestamp], the sort is stable (mutations with the same
    timestamp keep the order they had in the input), and the entries of
    the result list follow the same order.  That is so for every batch
    whose timestamps compare; a batch that mixes offset-naive and
    offset-aware timestamps makes [sorted] raise, and then no mutation
    is applied at all. *)
Theorem sync_applies_in_stable_timestamp_order (envelope : SyncEnvelope) (w : World) :
  (comparable (timestamps envelope) = true /\
   exists applied rs w1,
     sorted client_timestamp (mutations envelope) = Return applied /\
     Permutation applied (mutations envelope) /\
     StronglySorted (key_le timestamp) applied /\
     (forall t : Z,
        List.filter (fun m => (timestamp m =? t)%Z) applied
        = List.filter (fun m => (timestamp m =? t)%Z) (mutations envelope)) /\
     Steps w applied rs w1 /\
     sync envelope w
     = (Return (mkSyncResponse rs (clock (ticks w1))), mkWorld (db w1) (S (ticks w1))) /\
     Forall2 (fun m (r : doc) => r !! "op" = Some (VStr (op m))) applied rs)
  \/ (comparable (timestamps envelope) = false /\
      sync envelope w
      = (Raise cannot_compare, w)).
Proof.
  destruct (comparable (timestamps envelope)) eqn:Hc;
    [left | right; split; [reflexivity | now apply sync_refuses]].
  split; [reflexivity|].
  destruct (sync_runs envelope w Hc) as (rs & w1 & Hs & Hrun & Hsync).
  exists (sort_by timestamp (mutations envelope)), rs, w1.
  split; [exact Hs|].
  split; [apply sort_by_perm|].
  split; [apply sort_by_ascending|].
  split; [intros t; apply sort_by_stable|].
  split; [exact Hrun|]. split; [exact Hsync|].
  apply Steps_outcomes in Hrun.
  eapply Forall2_impl; [exact Hrun|].
  intros m r [Hop _]. exact Hop.
Qed.

(** C4, for a batch whose timestamps compare: a mutation whose op is
    none of createVehicle, logEvent, registerPart is accepted, gets an
    entry marked ignored with a reason and no error, raises nothing,
    and leaves the rest of the batch to be applied exactly as if it had
    not been there; every mutation with a known op is applied (its
    entry is ok and names the stored document) unless the store refuses
    its document. *)
Theorem sync_ignores_unknown_op (envelope : SyncEnvelope) (w : World) :
  comparable (timestamps envelope) = true ->
  (forall (name : string) (raw : doc),
     raw !! "op" = Some (VStr name) ->
     exists f, find_field "op" MutationModel = Some f /\
               validate_field f raw = inr (VStr name)) /\
  exists applied rs w1,
    sorted client_timestamp (mutations envelope) = Return applied /\
    Permutation applied (mutations envelope) /\
    Steps w applied rs w1 /\
    sync envelope w
    = (Return (mkSyncResponse rs (clock (ticks w1))), mkWorld (db w1) (S (ticks w1))) /\
    Forall2 (fun m (r : doc) =>
               known_op (op m) = false ->
               r !! "op" = Some (VStr (op m)) /\
               r !! "status" = Some (VStr "ignored") /\
               r !! "reason" = Some (VStr "unknown op") /\
               r !! "error" = None)
            applied rs /\
    Forall2 (applied_or_refused w1) applied rs /\
    sync (mkEnvelope (List.filter (fun m => known_op (op m)) (mutations envelope))) w
    = (Return (mkSyncResponse (List.filter (fun r => negb (is_ignored r)) rs)
                              (clock (ticks w1))),
       mkWorld (db w1) (S (ticks w1))).
Proof.
  intros Hc. split.
  { intros name raw Hop. exists (required "op" TStr). split; [reflexivity|].
    unfold validate_field. cbn [fname required ftyp]. now rewrite Hop. }
  destruct (sync_runs envelope w Hc) as (rs & w1 & Hs & Hrun & Hsync).
  exists (sort_by timestamp (mutations envelope)), rs, w1.
  split; [exact Hs|]. split; [apply sort_by_perm|].
  split; [exact Hrun|]. split; [exact Hsync|]. split; [|split].
  - clear -Hrun. induction Hrun as [|w m r w1 ms rs w2 Hm _ IH]; constructor; [|exact IH].
    intros Hk. rewrite (apply_mutation_unknown _ w Hk) in Hm.
    injection Hm as <- _. repeat split.
  - exact (Steps_applied_or_refused _ _ _ _ Hrun).
  - eapply sync_run.
    + cbn [mutations]. apply sorted_comparable. now apply comparable_filter.
    + rewrite sort_by_filter. now apply Steps_without_unknown.
Qed.

(** C5, for a batch whose timestamps compare: whatever is raised while
    one mutation is applied is caught and becomes an entry marked error
    that carries the message; the loop goes on, and the response has
    one entry per mutation, each with the mutation's op and exactly one
    of ok with an id, ignored with a reason, error with a message, and
    the time read from the server clock once the loop is over.  The id
    of an ok entry names the stored document, and the message of an
    error entry is the one the store raised. *)
Theorem sync_isolates_failures (envelope : SyncEnvelope) (w : World) :
  comparable (timestamps envelope) = true ->
  (forall m w0 e w1,
     dispatch m w0 = (Raise e, w1) ->
     apply_mutation m w0 = (Return (result_error (op m) e), w1)) /\
  exists applied rs w1,
    sorted client_timestamp (mutations envelope) = Return applied /\
    Permutation applied (mutations envelope) /\
    Steps w applied rs w1 /\
    sync envelope w
    = (Return (mkSyncResponse rs (clock (ticks w1))), mkWorld (db w1) (S (ticks w1))) /\
    length rs = length (mutations envelope) /\
    Forall2 tagged_outcome applied rs /\
    Forall2 (applied_or_refused w1) applied rs.
Proof.
  intros Hc. split.
  { intros m w0 e w1 Hraise. unfold apply_mutation, try_except.
    now rewrite Hraise. }
  destruct (sync_runs envelope w Hc) as (rs & w1 & Hs & Hrun & Hsync).
  exists (sort_by timestamp (mutations envelope)), rs, w1.
  split; [exact Hs|]. split; [apply sort_by_perm|].
  split; [exact Hrun|]. split; [exact Hsync|]. split; [|split].
  - rewrite (Steps_length _ _ _ _ Hrun). apply sort_by_length.
  - now apply Steps_outcomes in Hrun.
  - exact (Steps_applied_or_refused _ _ _ _ Hrun).
Qed.

(** ** The store *)

Lemma events_update_vehicle (oid : N) (patch : doc) (s : Store) :
  events (store_update vehicle oid patch s) = events s.
Proof. unfold store_update. cbn. now destruct (vehicles s !! oid). Qed.

Lemma vehicles_update_found (oid : N) (patch v : doc) (s : Store) :
  vehicles s !! oid = Some v ->
  vehicles (store_update vehicle oid patch s) = <[oid := patch ∪ v]> (vehicles s).
Proof. intros H. unfold store_update. cbn. now rewrite H. Qed.

Lemma vehicles_update_missing (oid : N) (patch : doc) (s : Store) :
  vehicles s !! oid = None -> store_update vehicle oid patch s = s.
Proof. intros H. unfold store_update. cbn. now rewrite H. Qed.

(** ** The event handler *)

(** When the store refuses the event, the handler fails with the
    store's message and nothing is written. *)
Lemma log_event_refused (payload : doc) (w : World) (e : string) :
  insert_fault (db w) event (event_data payload w) = Some e ->
  log_event payload w = (Raise e, mkWorld (db w) (S (ticks w))).
Proof.
  intros Hno. unfold log_event. unfold bind at 1. unfold now at 1. cbn [db ticks].
  unfold bind at 1. unfold create_document at 1. cbn [db ticks].
  fold (event_data payload w). now rewrite Hno.
Qed.

Lemma to_ObjectId_world (v : value) (w : World) : snd (to_ObjectId v w) = w.
Proof.
  unfold to_ObjectId. destruct v; try reflexivity. now destruct (ObjectId s).
Qed.

(** What the handler does once the store has taken the event. *)
Lemma log_event_request (payload : doc) (w : World) :
  insert_fault (db w) event (event_data payload w) = None ->
  (next_oid (db w) < 2 ^ 96)%N ->
  let data := event_data payload w in
  let w1 := mkWorld (store_insert event data (db w)) (S (ticks w)) in
  let body := _serialize (Some (<["_id" := VOid (next_oid (db w))]> data)) in
  log_event payload w =
  if rule_applies data then
    match to_ObjectId (get "vehicle_id" data) w1 with
    | (Return vid, _) =>
        (Return body,
         mkWorld match oid_number vid with
                 | Some n =>
                     store_update vehicle n (rule_patch data (clock (S (ticks w)))) (db w1)
                 | None => db w1
                 end
                 (S (S (ticks w))))
    | (Raise e, _) => (Raise e, w1)
    end
  else (Return body, w1).
Proof.
  intros Hok Hid data w1 body.
  unfold log_event. unfold bind at 1. unfold now at 1. cbn [db ticks].
  fold (event_data payload w).
  unfold bind at 1. unfold create_document at 1. cbn [db ticks].
  rewrite Hok.
  unfold bind at 1. unfold to_ObjectId at 1. rewrite ObjectId_oid_str.
  unfold ret at 1.
  unfold bind at 1. unfold find_one at 1. cbn [db ticks].
  rewrite (oid_number_bytes _ Hid).
  rewrite collection_insert, lookup_insert_eq. cbn [option_map].
  fold data. fold w1. fold body.
  unfold bind at 1.
  destruct (rule_applies data); [|reflexivity].
  unfold bind at 1.
  pose proof (to_ObjectId_world (get "vehicle_id" data) w1) as Hw.
  destruct (to_ObjectId (get "vehicle_id" data) w1) as [[vid|e] w2];
    cbn [snd] in Hw; subst w2; reflexivity.
Qed.

Lemma dump_lookup (payload : doc) (k : string) (v : value) :
  model_dump_exclude_none payload !! k = Some v
  <-> payload !! k = Some v /\ is_none v = false.
Proof. unfold model_dump_exclude_none. apply map_lookup_filter_Some. Qed.

Lemma dump_lookup_None (payload : doc) (k : string) :
  model_dump_exclude_none payload !! k = None
  <-> payload !! k = None \/ payload !! k = Some VNull.
Proof.
  unfold model_dump_exclude_none. rewrite map_lookup_filter_None. cbn.
  split.
  - intros [H|H]; [now left|].
    destruct (payload !! k) as [v|] eqn:E; [|now left].
    right. f_equal. specialize (H v eq_refl). now destruct v.
  - intros [H|H]; [now left|].
    right. intros v Hv. rewrite H in Hv. injection Hv as <-. discriminate.
Qed.

Lemma setdefault_other (k k' : string) (v : value) (d : doc) :
  k <> k' -> setdefault k v d !! k' = d !! k'.
Proof.
  intros Hne. unfold setdefault.
  destruct (d !! k); [reflexivity|]. now rewrite lookup_insert_ne.
Qed.

Lemma event_data_field (payload : doc) (w : World) (k : string) (v : value) :
  k <> "occurred_at" -> is_none v = false ->
  payload !! k = Some v -> event_data payload w !! k = Some v.
Proof.
  intros Hk Hv Hp. unfold event_data.
  rewrite setdefault_other by congruence.
  now apply dump_lookup.
Qed.

Lemma ObjectId_nonempty (s : string) (b : list N) :
  ObjectId s = Some b -> truthy (VStr s) = true.
Proof. destruct s; [discriminate | reflexivity]. Qed.

(** The rule engine at work: the event names an id that reads as the
    ObjectId [oid] and its type is dismantling or scrap. *)
Lemma log_event_fires (payload : doc) (w : World) (vid et : string)
    (b : list N) (oid : N) :
  insert_fault (db w) event (event_data payload w) = None ->
  (next_oid (db w) < 2 ^ 96)%N ->
  payload !! "vehicle_id" = Some (VStr vid) ->
  ObjectId vid = Some b ->
  oid_number b = Some oid ->
  payload !! "event_type" = Some (VStr et) ->
  existsb (String.eqb et) ["dismantling"; "scrap"] = true ->
  exists body,
    log_event payload w =
    (Return body,
     mkWorld (store_update vehicle oid
                (<["status" := VStr (if String.eqb et "dismantling"
                                     then "dismantled" else "scrapped")]>
                   (<["updated_at" := VDate (clock (S (ticks w)))]> ∅))
                (store_insert event (event_data payload w) (db w)))
             (S (S (ticks w)))).
Proof.
  intros Hok Hid Hv Hoid Hnum He Hin.
  rewrite (log_event_request _ _ Hok Hid). cbv zeta.
  assert (Hv' : event_data payload w !! "vehicle_id" = Some (VStr vid))
    by (apply event_data_field; [discriminate | reflexivity | exact Hv]).
  assert (He' : event_data payload w !! "event_type" = Some (VStr et))
    by (apply event_data_field; [discriminate | reflexivity | exact He]).
  unfold rule_applies, rule_patch, derived_status, get.
  rewrite Hv', He'. cbn [str_in str_is].
  rewrite (ObjectId_nonempty _ _ Hoid), Hin. cbn [andb].
  unfold to_ObjectId. rewrite Hoid. unfold ret. rewrite Hnum. eauto.
Qed.

(** Without a usable reference, or for another event type, only the
    event is written. *)
Lemma log_event_skips (payload : doc) (w : World) :
  insert_fault (db w) event (event_data payload w) = None ->
  (next_oid (db w) < 2 ^ 96)%N ->
  rule_applies (event_data payload w) = false ->
  exists body,
    log_event payload w =
    (Return body,
     mkWorld (store_insert event (event_data payload w) (db w)) (S (ticks w))).
Proof.
  intros Hok Hid Hno.
  rewrite (log_event_request _ _ Hok Hid). cbv zeta. rewrite Hno. eauto.
Qed.

(** A reference that reads as a twelve-byte ObjectId but names no
    vehicle: the update matches nothing, the handler returns and only
    the event is new. *)
Lemma log_event_unresolved (payload : doc) (w : World) (vid et : string)
    (b : list N) (oid : N) :
  insert_fault (db w) event (event_data payload w) = None ->
  (next_oid (db w) < 2 ^ 96)%N ->
  payload !! "vehicle_id" = Some (VStr vid) ->
  ObjectId vid = Some b ->
  oid_number b = Some oid ->
  vehicles (db w) !! oid = None ->
  payload !! "event_type" = Some (VStr et) ->
  exists body w',
    log_event payload w = (Return body, w') /\
    vehicles (db w') = vehicles (db w) /\
    events (db w') !! next_oid (db w) = Some (event_data payload w).
Proof.
  intros Hok Hid Hvid Hoid Hnum Hnone Het.
  assert (Hins : events (store_insert event (event_data payload w) (db w)) !! next_oid (db w)
                 = Some (event_data payload w)).
  { change (events (store_insert event (event_data payload w) (db w)))
      with (<[next_oid (db w) := event_data payload w]> (events (db w))).
    apply lookup_insert_eq. }
  destruct (existsb (String.eqb et) ["dismantling"; "scrap"]) eqn:Hin.
  - destruct (log_event_fires payload w vid et b oid Hok Hid Hvid Hoid Hnum Het Hin)
      as [body Hrun].
    eexists body, _. split; [exact Hrun|]. cbn [db].
    rewrite vehicles_update_missing by exact Hnone.
    split; [reflexivity | exact Hins].
  - assert (Hno : rule_applies (event_data payload w) = false).
    { unfold rule_applies, get.
      rewrite (event_data_field payload w "event_type" (VStr et))
        by (discriminate || reflexivity || exact Het).
      cbn [str_in]. rewrite Hin. apply andb_false_r. }
    destruct (log_event_skips payload w Hok Hid Hno) as [body Hrun].
    eexists body, _. split; [exact Hrun|]. cbn [db].
    split; [reflexivity | exact Hins].
Qed.

(** A reference that [ObjectId] rejects: on a dismantling or scrap
    event the handler raises once the event is stored. *)
Lemma log_event_malformed (payload : doc) (w : World) (vid et : string) :
  insert_fault (db w) event (event_data payload w) = None ->
  (next_oid (db w) < 2 ^ 96)%N ->
  payload !! "vehicle_id" = Some (VStr vid) ->
  vid <> "" ->
  ObjectId vid = None ->
  payload !! "event_type" = Some (VStr et) ->
  existsb (String.eqb et) ["dismantling"; "scrap"] = true ->
  log_event payload w =
  (Raise "InvalidId: not a 12-byte input or a 24-character hex string",
   mkWorld (store_insert event (event_data payload w) (db w)) (S (ticks w))).
Proof.
  intros Hok Hid Hvid Hne Hoid Het Hin.
  rewrite (log_event_request _ _ Hok Hid). cbv zeta.
  assert (Hv' : event_data payload w !! "vehicle_id" = Some (VStr vid))
    by (apply event_data_field; [discriminate | reflexivity | exact Hvid]).
  assert (He' : event_data payload w !! "event_type" = Some (VStr et))
    by (apply event_data_field; [discriminate | reflexivity | exact Het]).
  unfold rule_applies, get. rewrite Hv', He'. cbn [str_in truthy].
  apply String.eqb_neq in Hne. rewrite Hne, Hin. cbn [negb andb].
  unfold to_ObjectId. rewrite Hoid. reflexivity.
Qed.

Lemma patch_union (status : string) (t : Z) (v : doc) :
  <["status" := VStr status]> (<["updated_at" := VDate t]> ∅) ∪ v
  = <["status" := VStr status]> (<["updated_at" := VDate t]> v).
Proof. rewrite <- !insert_union_l. now rewrite (left_id ∅ (∪)). Qed.

(** The vehicles after a firing of the rule engine on a vehicle that
    exists. *)
Lemma fired_vehicles (oid : N) (status : string) (t : Z) (d v : doc) (s : Store) :
  vehicles s !! oid = Some v ->
  vehicles (store_update vehicle oid
              (<["status" := VStr status]> (<["updated_at" := VDate t]> ∅))
              (store_insert event d s))
  = <[oid := <["status" := VStr status]> (<["updated_at" := VDate t]> v)]> (vehicles s).
Proof.
  intros Hv.
  rewrite (vehicles_update_found oid _ v); [|exact Hv].
  now rewrite patch_union.
Qed.

Lemma fired_events (oid : N) (patch d : doc) (s : Store) :
  events (store_update vehicle oid patch (store_insert event d s)) !! next_oid s = Some d.
Proof.
  rewrite events_update_vehicle.
  change (events (store_insert event d s)) with (<[next_oid s := d]> (events s)).
  apply lookup_insert_eq.
Qed.

(** C6: an event logged through POST /events that names an existing
    vehicle sets that vehicle's status to dismantled when its type is
    dismantling and to scrapped when its type is scrap, stamping
    [updated_at] with the server time in both cases; an event of any
    other type leaves the vehicles as they were. *)
Theorem log_event_rule_engine (payload : doc) (w : World) (vid et : string)
    (b : list N) (oid : N) (v : doc) :
  insert_fault (db w) event (event_data payload w) = None ->
  (next_oid (db w) < 2 ^ 96)%N ->
  payload !! "vehicle_id" = Some (VStr vid) ->
  ObjectId vid = Some b ->
  oid_number b = Some oid ->
  vehicles (db w) !! oid = Some v ->
  payload !! "event_type" = Some (VStr et) ->
  exists body w',
    log_event payload w = (Return body, w') /\
    events (db w') !! next_oid (db w) = Some (event_data payload w) /\
    (et = "dismantling" ->
     vehicles (db w')
     = <[oid := <["status" := VStr "dismantled"]>
                  (<["updated_at" := VDate (clock (S (ticks w)))]> v)]> (vehicles (db w))) /\
    (et = "scrap" ->
     vehicles (db w')
     = <[oid := <["status" := VStr "scrapped"]>
                  (<["updated_at" := VDate (clock (S (ticks w)))]> v)]> (vehicles (db w))) /\
    (et <> "dismantling" -> et <> "scrap" -> vehicles (db w') = vehicles (db w)).
Proof.
  intros Hok Hid Hvid Hoid Hnum Hv Het.
  destruct (existsb (String.eqb et) ["dismantling"; "scrap"]) eqn:Hin.
  - destruct (log_event_fires payload w vid et b oid Hok Hid Hvid Hoid Hnum Het Hin)
      as [body Hrun].
    eexists body, _. split; [exact Hrun|]. cbn [db].
    split; [apply fired_events|].
    rewrite (fired_vehicles _ _ _ _ v) by exact Hv.
    split; [|split].
    + intros ->. reflexivity.
    + intros ->. reflexivity.
    + intros Hd Hs. cbn [existsb] in Hin.
      apply orb_true_iff in Hin as [H|H]; [apply String.eqb_eq in H; congruence|].
      apply orb_true_iff in H as [H|H]; [apply String.eqb_eq in H; congruence|].
      discriminate.
  - assert (Hno : rule_applies (event_data payload w) = false).
    { unfold rule_applies, get.
      rewrite (event_data_field payload w "event_type" (VStr et))
        by (discriminate || reflexivity || exact Het).
      cbn [str_in]. rewrite Hin. apply andb_false_r. }
    destruct (log_event_skips payload w Hok Hid Hno) as [body Hrun].
    eexists body, _. split; [exact Hrun|]. cbn [db].
    split.
    { change (events (store_insert event (event_data payload w) (db w)))
        with (<[next_oid (db w) := event_data payload w]> (events (db w))).
      apply lookup_insert_eq. }
    split; [|split].
    + intros ->. discriminate.
    + intros ->. discriminate.
    + reflexivity.
Qed.


(** ** Validation *)

Lemma conforms_null (t : ftype) (v : value) :
  conforms t VNull = Some v -> v = VNull.
Proof. destruct t; cbn; congruence. Qed.

Lemma conforms_optional_str (v v' : value) :
  conforms (TOptional TStr) v = Some v' -> v' = v.
Proof. destruct v; cbn; congruence. Qed.

Lemma find_field_name (k : string) (schema : list field) (f : field) :
  find_field k schema = Some f -> fname f = k.
Proof.
  unfold find_field. intros H. apply List.find_some in H as [_ H].
  now apply String.eqb_eq.
Qed.

(** A model that validated holds, for each key, what the first field
    of that name made of the body. *)
Lemma validated_lookup (schema : list field) (raw model : doc) (k : string) :
  validate_fields schema raw = ([], model) ->
  model !! k =
  match find_field k schema with
  | Some f => match validate_field f raw with inr v => Some v | inl _ => None end
  | None => None
  end.
Proof.
  revert model. induction schema as [|f rest IH]; intros model.
  - cbn. intros [= <-]. apply lookup_empty.
  - cbn [validate_fields].
    destruct (validate_fields rest raw) as [errs m'] eqn:Hrest.
    destruct (validate_field f raw) as [e|v] eqn:Hf; [discriminate|].
    intros [= -> <-].
    unfold find_field. cbn [List.find].
    destruct (String.eqb (fname f) k) eqn:Hk.
    + apply String.eqb_eq in Hk. subst k. rewrite Hf. apply lookup_insert_eq.
    + apply String.eqb_neq in Hk. rewrite lookup_insert_ne by exact Hk.
      now apply IH.
Qed.

Lemma model_validate_fields (schema : list field) (raw model : doc) :
  model_validate schema raw = inr model -> validate_fields schema raw = ([], model).
Proof.
  unfold model_validate.
  destruct (validate_fields schema raw) as [[|e errs] m]; congruence.
Qed.

(** A key sent as [null] is [None] in the model, or not a field. *)
Lemma validated_null (schema : list field) (raw model : doc) (k : string) :
  model_validate schema raw = inr model ->
  raw !! k = Some VNull ->
  model !! k = None \/ model !! k = Some VNull.
Proof.
  intros Hval Hraw. apply model_validate_fields in Hval.
  rewrite (validated_lookup _ _ _ k Hval).
  destruct (find_field k schema) as [f|] eqn:Hf; [|now left].
  apply find_field_name in Hf. unfold validate_field. rewrite Hf, Hraw.
  destruct (conforms (ftyp f) VNull) as [v|] eqn:Hc; [|now left].
  apply conforms_null in Hc. subst v. now right.
Qed.

Lemma dumped_null (schema : list field) (raw model : doc) (k : string) :
  model_validate schema raw = inr model ->
  raw !! k = Some VNull ->
  model_dump_exclude_none model !! k = None.
Proof.
  intros Hval Hraw. apply dump_lookup_None.
  eapply validated_null; eassumption.
Qed.

(** A key that was left out takes the field's default. *)
Lemma validated_default (schema : list field) (raw model : doc) (k : string)
    (f : field) (d : value) :
  model_validate schema raw = inr model ->
  find_field k schema = Some f -> fdefault f = Some d ->
  raw !! k = None ->
  model !! k = Some d.
Proof.
  intros Hval Hf Hd Hraw. apply model_validate_fields in Hval.
  rewrite (validated_lookup _ _ _ k Hval), Hf.
  apply find_field_name in Hf. unfold validate_field. now rewrite Hf, Hraw, Hd.
Qed.

(** A key that was sent is in the model as its type read it. *)
Lemma validated_present (schema : list field) (raw model : doc) (k : string)
    (f : field) (v : value) :
  model_validate schema raw = inr model ->
  find_field k schema = Some f ->
  raw !! k = Some v ->
  exists v', conforms (ftyp f) v = Some v' /\ model !! k = Some v'.
Proof.
  intros Hval Hf Hraw. apply model_validate_fields in Hval.
  pose proof (validated_lookup _ _ _ k Hval) as Hk. rewrite Hf in Hk.
  revert Hk.
  induction schema as [|g rest IH] in model, Hval, Hf |- *; [discriminate|].
  cbn [validate_fields] in Hval.
  destruct (validate_fields rest raw) as [errs m'] eqn:Hrest.
  destruct (validate_field g raw) as [e|x] eqn:Hg; [discriminate|].
  injection Hval as -> <-.
  unfold find_field in Hf. cbn [List.find] in Hf.
  destruct (String.eqb (fname g) k) eqn:Hgk.
  - injection Hf as <-. rewrite Hg. intros Hk.
    apply String.eqb_eq in Hgk.
    unfold validate_field in Hg. rewrite Hgk, Hraw in Hg.
    destruct (conforms (ftyp g) v) as [v'|]; [|discriminate].
    injection Hg as <-. eauto.
  - intros Hk. apply String.eqb_neq in Hgk.
    rewrite lookup_insert_ne in Hk by exact Hgk.
    rewrite lookup_insert_ne by exact Hgk.
    apply (IH m' eq_refl Hf Hk).
Qed.

(** ** The creation handlers *)

Lemma create_vehicle_request (payload : doc) (w : World) :
  insert_fault (db w) vehicle (model_dump_exclude_none payload) = None ->
  (next_oid (db w) < 2 ^ 96)%N ->
  create_vehicle payload w =
  (Return (_serialize (Some (<["_id" := VOid (next_oid (db w))]>
                               (model_dump_exclude_none payload)))),
   mkWorld (store_insert vehicle (model_dump_exclude_none payload) (db w)) (ticks w)).
Proof.
  intros Hok Hid. unfold create_vehicle.
  unfold bind at 1. unfold create_document at 1. rewrite Hok.
  unfold bind at 1. unfold to_ObjectId at 1. rewrite ObjectId_oid_str.
  unfold ret at 1. unfold bind at 1. unfold find_one at 1. cbn [db ticks].
  rewrite (oid_number_bytes _ Hid).
  rewrite collection_insert, lookup_insert_eq. reflexivity.
Qed.

Lemma register_part_request (payload : doc) (w : World) :
  insert_fault (db w) part (model_dump_exclude_none payload) = None ->
  (next_oid (db w) < 2 ^ 96)%N ->
  register_part payload w =
  (Return (_serialize (Some (<["_id" := VOid (next_oid (db w))]>
                               (model_dump_exclude_none payload)))),
   mkWorld (store_insert part (model_dump_exclude_none payload) (db w)) (ticks w)).
Proof.
  intros Hok Hid. unfold register_part.
  unfold bind at 1. unfold create_document at 1. rewrite Hok.
  unfold bind at 1. unfold to_ObjectId at 1. rewrite ObjectId_oid_str.
  unfold ret at 1. unfold bind at 1. unfold find_one at 1. cbn [db ticks].
  rewrite (oid_number_bytes _ Hid).
  rewrite collection_insert, lookup_insert_eq. reflexivity.
Qed.

(** Once the store has taken the event it stays recorded, whatever
    the rest of the handler does. *)
Lemma log_event_records (payload : doc) (w : World) :
  insert_fault (db w) event (event_data payload w) = None ->
  events (db (snd (log_event payload w))) !! next_oid (db w)
  = Some (event_data payload w).
Proof.
  intros Hok.
  assert (Hins : events (store_insert event (event_data payload w) (db w)) !! next_oid (db w)
                 = Some (event_data payload w)).
  { change (events (store_insert event (event_data payload w) (db w)))
      with (<[next_oid (db w) := event_data payload w]> (events (db w))).
    apply lookup_insert_eq. }
  unfold log_event. unfold bind at 1. unfold now at 1. cbn [db ticks].
  fold (event_data payload w).
  unfold bind at 1. unfold create_document at 1. cbn [db ticks]. rewrite Hok.
  unfold bind at 1. unfold to_ObjectId at 1.
  destruct (ObjectId (oid_str (next_oid (db w)))) as [n|]; [|exact Hins].
  unfold ret at 1. unfold bind at 1. unfold find_one at 1. cbn [db ticks].
  unfold bind at 1.
  destruct (rule_applies (event_data payload w)); [|exact Hins].
  unfold bind at 1.
  match goal with |- context [to_ObjectId ?v ?w1] =>
    pose proof (to_ObjectId_world v w1) as Hw;
    destruct (to_ObjectId v w1) as [[vid|e] w2]; cbn [snd] in Hw; subst w2
  end; [|exact Hins].
  unfold bind, now, update_one, ret. cbn [snd db ticks].
  destruct (oid_number vid); [|exact Hins].
  rewrite events_update_vehicle. exact Hins.
Qed.

Lemma endpoint_valid (schema : list field) (handler : doc -> M (option doc))
    (raw payload : doc) (w : World) :
  model_validate schema raw = inr payload ->
  endpoint schema handler raw w
  = match handler payload w with
    | (Return body, w') => (Return (R200 body), w')
    | (Raise e, w') => (Raise e, w')
    end.
Proof.
  intros Hval. unfold endpoint. rewrite Hval. unfold bind.
  now destruct (handler payload w) as [[body|e] w'].
Qed.

Lemma endpoint_invalid (schema : list field) (handler : doc -> M (option doc))
    (raw : doc) (errs : list verror) (w : World) :
  model_validate schema raw = inl errs ->
  endpoint schema handler raw w = (Return (R422 errs), w).
Proof. intros Hval. unfold endpoint. now rewrite Hval. Qed.

Lemma endpoint_world (schema : list field) (handler : doc -> M (option doc))
    (raw payload : doc) (w : World) :
  model_validate schema raw = inr payload ->
  snd (endpoint schema handler raw w) = snd (handler payload w).
Proof.
  intros Hval. rewrite (endpoint_valid _ _ _ _ _ Hval).
  now destruct (handler payload w) as [[body|e] w'].
Qed.

(** What the stored document holds for an [Optional[str] = "unknown"]
    field: the default when the key was left out, nothing when it was
    sent as [null], and otherwise the value as sent. *)
Lemma stored_enum_field (schema : list field) (raw model : doc) (k : string) :
  model_validate schema raw = inr model ->
  find_field k schema = Some (optional_str_unknown k) ->
  model_dump_exclude_none model !! k =
  match raw !! k with
  | None => Some (VStr "unknown")
  | Some v => if is_none v then None else Some v
  end.
Proof.
  intros Hval Hf.
  destruct (raw !! k) as [v|] eqn:Hraw.
  - destruct (validated_present _ _ _ _ _ _ Hval Hf Hraw) as (v' & Hc & Hm).
    cbn [ftyp optional_str_unknown] in Hc.
    apply conforms_optional_str in Hc. subst v'.
    destruct (is_none v) eqn:Hn.
    + apply dump_lookup_None. right. now destruct v.
    + now apply dump_lookup.
  - apply dump_lookup. split; [|reflexivity].
    eapply validated_default; [exact Hval | exact Hf | reflexivity | exact Hraw].
Qed.

(** C10, amended: a field sent as [null] to POST /vehicles or POST
    /parts is missing from the stored document, and so is every field
    but [occurred_at] sent as [null] to POST /events: a [null]
    [occurred_at] is dropped and then filled with the server time.  An
    enumerated field of a vehicle or a part is stored as "unknown" only
    when its key was left out; sent as [null] it is not stored, and
    sent with a string it is stored as sent. *)
Theorem explicit_null_is_stripped (raw payload : doc) (w : World) :
  (model_validate CreateVehiclePayload raw = inr payload ->
   insert_fault (db w) vehicle (model_dump_exclude_none payload) = None ->
   (next_oid (db w) < 2 ^ 96)%N ->
   exists body w' d,
     post_vehicles raw w = (Return (R200 body), w') /\
     vehicles (db w') !! next_oid (db w) = Some d /\
     (forall k, raw !! k = Some VNull -> d !! k = None) /\
     (forall k, In k vehicle_enum_fields ->
        d !! k = match raw !! k with
                 | None => Some (VStr "unknown")
                 | Some v => if is_none v then None else Some v
                 end)) /\
  (model_validate PartPayload raw = inr payload ->
   insert_fault (db w) part (model_dump_exclude_none payload) = None ->
   (next_oid (db w) < 2 ^ 96)%N ->
   exists body w' d,
     post_parts raw w = (Return (R200 body), w') /\
     parts (db w') !! next_oid (db w) = Some d /\
     (forall k, raw !! k = Some VNull -> d !! k = None) /\
     (forall k, In k part_enum_fields ->
        d !! k = match raw !! k with
                 | None => Some (VStr "unknown")
                 | Some v => if is_none v then None else Some v
                 end)) /\
  (model_validate EventPayload raw = inr payload ->
   insert_fault (db w) event (event_data payload w) = None ->
   exists d,
     events (db (snd (post_events raw w))) !! next_oid (db w) = Some d /\
     (forall k, k <> "occurred_at" -> raw !! k = Some VNull -> d !! k = None) /\
     (raw !! "occurred_at" = Some VNull ->
      d !! "occurred_at" = Some (VDate (clock (ticks w))))).
Proof.
  split; [|split].
  - intros Hval Hok Hid.
    eexists _, _, (model_dump_exclude_none payload).
    split.
    { unfold post_vehicles. rewrite (endpoint_valid _ _ _ _ _ Hval).
      rewrite (create_vehicle_request _ _ Hok Hid). reflexivity. }
    cbn [db]. split; [|split].
    + change (vehicles (store_insert vehicle (model_dump_exclude_none payload) (db w)))
        with (<[next_oid (db w) := model_dump_exclude_none payload]> (vehicles (db w))).
      apply lookup_insert_eq.
    + intros k Hk. eapply dumped_null; eassumption.
    + intros k Hk. apply (stored_enum_field _ _ _ _ Hval).
      cbn in Hk. destruct Hk as [<-|[<-|[<-|[<-|[]]]]]; reflexivity.
  - intros Hval Hok Hid.
    eexists _, _, (model_dump_exclude_none payload).
    split.
    { unfold post_parts. rewrite (endpoint_valid _ _ _ _ _ Hval).
      rewrite (register_part_request _ _ Hok Hid). reflexivity. }
    cbn [db]. split; [|split].
    + change (parts (store_insert part (model_dump_exclude_none payload) (db w)))
        with (<[next_oid (db w) := model_dump_exclude_none payload]> (parts (db w))).
      apply lookup_insert_eq.
    + intros k Hk. eapply dumped_null; eassumption.
    + intros k Hk. apply (stored_enum_field _ _ _ _ Hval).
      cbn in Hk. destruct Hk as [<-|[]]; reflexivity.
  - intros Hval Hok.
    exists (event_data payload w).
    split.
    { unfold post_events. rewrite (endpoint_world _ _ _ _ _ Hval).
      now apply log_event_records. }
    split.
    + intros k Hk Hraw. unfold event_data.
      rewrite setdefault_other by congruence.
      eapply dumped_null; eassumption.
    + intros Hraw. unfold event_data, setdefault.
      rewrite (dumped_null _ _ _ _ Hval Hraw). apply lookup_insert_eq.
Qed.

(** ** Time stamps *)

(** [sync] never rewrites a document that was stored before the
    batch: in particular no logEvent mutation changes a vehicle. *)
Lemma sync_keeps_stored_documents (envelope : SyncEnvelope) (w : World) (c : Coll) (k : N) :
  (k < next_oid (db w))%N ->
  collection c (db (snd (sync envelope w))) !! k = collection c (db w) !! k.
Proof.
  intros Hk.
  destruct (comparable (timestamps envelope)) eqn:Hc;
    [|now rewrite (sync_refuses _ _ Hc)].
  destruct (sync_runs envelope w Hc) as (rs & w1 & _ & Hrun & ->).
  cbn [snd db].
  now apply (Steps_keeps _ _ _ _ Hrun).
Qed.




(** * More of the code *)

(** ** [_serialize] *)

Lemma serialize_some (d0 : doc) :
  dom d0 <> ∅ ->
  _serialize (Some d0)
  = Some ((fun v => match v with VOid n => VStr (oid_str n) | _ => v end)
            <$> match d0 !! "_id" with
                | Some v => <["id" := VStr (str_of v)]> (delete "_id" d0)
                | None => d0
                end).
Proof.
  intros Hne. unfold _serialize. cbn [truthy].
  rewrite bool_decide_eq_false_2 by exact Hne. reflexivity.
Qed.

Lemma serialize_empty (d0 : doc) : dom d0 = ∅ -> _serialize (Some d0) = Some d0.
Proof.
  intros He. unfold _serialize. cbn [truthy].
  now rewrite bool_decide_eq_true_2 by exact He.
Qed.

Lemma stringified_no_oid (m : doc) (k : string) (n : N) :
  ((fun v => match v with VOid i => VStr (oid_str i) | _ => v end) <$> m) !! k
  <> Some (VOid n).
Proof.
  rewrite lookup_fmap. destruct (m !! k) as [[]|]; cbn; congruence.
Qed.

Lemma renamed_no_id_key (d0 : doc) :
  match d0 !! "_id" with
  | Some v => <["id" := VStr (str_of v)]> (delete "_id" d0)
  | None => d0
  end !! "_id" = None.
Proof.
  destruct (d0 !! "_id") as [v|] eqn:Hid; [|exact Hid].
  rewrite lookup_insert_ne by discriminate. apply lookup_delete_eq.
Qed.

(** [_serialize] never lets an [_id] key or an ObjectId value through
    at the top of the document. *)
Theorem serialize_leaves_no_ObjectId (found : option doc) (d : doc) :
  _serialize found = Some d ->
  d !! "_id" = None /\ forall k n, d !! k <> Some (VOid n).
Proof.
  destruct found as [d0|]; [|discriminate].
  destruct (decide (dom d0 = ∅)) as [He|Hne].
  - rewrite (serialize_empty _ He). intros [= <-].
    apply dom_empty_inv_L in He. subst d0. split; [apply lookup_empty|].
    intros k n. now rewrite lookup_empty.
  - rewrite (serialize_some _ Hne). intros [= <-]. split.
    + rewrite lookup_fmap, renamed_no_id_key. reflexivity.
    + intros k n. apply stringified_no_oid.
Qed.

(** The [_id] of a stored document comes out under [id] as the 24
    digits that read back as the same ObjectId, whatever the document
    held under [id] before. *)
Theorem serialize_id_reads_back (d0 : doc) (n : N) :
  d0 !! "_id" = Some (VOid n) ->
  (n < 2 ^ 96)%N ->
  exists d,
    _serialize (Some d0) = Some d /\
    d !! "id" = Some (VStr (oid_str n)) /\
    ObjectId (oid_str n) = Some (oid_bytes n) /\
    oid_number (oid_bytes n) = Some n.
Proof.
  intros Hid Hn.
  assert (Hne : dom d0 <> ∅).
  { intros He. apply dom_empty_inv_L in He. subst d0. now rewrite lookup_empty in Hid. }
  eexists. split; [apply (serialize_some _ Hne)|]. split.
  - rewrite Hid, lookup_fmap, lookup_insert_eq. reflexivity.
  - split; [apply ObjectId_oid_str | now apply oid_number_bytes].
Qed.

(** Every other field stays, a top-level ObjectId as its 24 digits and
    anything else as it is: ObjectIds inside a nested dict or list are
    not converted. *)
Theorem serialize_keeps_fields (d0 d : doc) (k : string) :
  _serialize (Some d0) = Some d ->
  k <> "_id" ->
  k <> "id" \/ d0 !! "_id" = None ->
  d !! k = (fun v => match v with VOid n => VStr (oid_str n) | _ => v end) <$> d0 !! k.
Proof.
  intros Hs Hk Hid.
  destruct (decide (dom d0 = ∅)) as [He|Hne].
  - rewrite (serialize_empty _ He) in Hs. injection Hs as <-.
    apply dom_empty_inv_L in He. subst d0. now rewrite lookup_empty.
  - rewrite (serialize_some _ Hne) in Hs. injection Hs as <-.
    rewrite lookup_fmap. f_equal.
    destruct (d0 !! "_id") as [v|] eqn:Hv; [|reflexivity].
    destruct Hid as [Hid|Hid]; [|discriminate].
    rewrite lookup_insert_ne by congruence.
    now rewrite lookup_delete_ne by congruence.
Qed.

(** Serialising twice is serialising once. *)
Theorem serialize_idempotent (found : option doc) :
  _serialize (_serialize found) = _serialize found.
Proof.
  destruct found as [d0|]; [|reflexivity].
  destruct (decide (dom d0 = ∅)) as [He|Hne].
  { rewrite (serialize_empty _ He). now apply serialize_empty. }
  rewrite (serialize_some _ Hne).
  match goal with |- _serialize (Some ?x) = _ => set (d := x) end.
  destruct (decide (dom d = ∅)) as [He'|Hne']; [now apply serialize_empty|].
  rewrite (serialize_some _ Hne').
  assert (Hid : d !! "_id" = None)
    by (subst d; rewrite lookup_fmap, renamed_no_id_key; reflexivity).
  rewrite Hid. f_equal.
  apply map_eq. intros k. rewrite lookup_fmap.
  destruct (d !! k) as [v|] eqn:Hv; [|reflexivity].
  cbn. f_equal. destruct v; try reflexivity.
  subst d. now apply stringified_no_oid in Hv.
Qed.

(** ** The creation endpoints *)

Lemma conforms_not_oid (t : ftype) : forall (v v' : value) (n : N),
  conforms t v = Some v' -> v' <> VOid n.
Proof.
  induction t as [| | | | |t IH|t IH]; intros v v' n.
  - destruct v; cbn; congruence.
  - destruct v; cbn; congruence.
  - destruct v; cbn; congruence.
  - destruct v; cbn; try congruence.
    destruct (parse_iso s); cbn; congruence.
  - destruct v; cbn; congruence.
  - destruct v; cbn; try congruence.
    destruct (mapM (conforms t) l); cbn; congruence.
  - destruct v; cbn; try congruence; apply IH.
Qed.

Lemma find_field_in (k : string) (schema : list field) (f : field) :
  find_field k schema = Some f -> In f schema.
Proof. unfold find_field. intros H. now apply List.find_some in H as [H _]. Qed.

(** A model whose defaults are not ObjectIds holds none after
    validation. *)
Lemma validated_no_oid (schema : list field) (raw model : doc) (k : string) (n : N) :
  Forall (fun f => fdefault f <> Some (VOid n)) schema ->
  model_validate schema raw = inr model ->
  model !! k <> Some (VOid n).
Proof.
  intros Hdef Hval. apply model_validate_fields in Hval.
  rewrite (validated_lookup _ _ _ k Hval).
  destruct (find_field k schema) as [f|] eqn:Hf; [|discriminate].
  apply find_field_in in Hf.
  rewrite List.Forall_forall in Hdef. specialize (Hdef f Hf).
  unfold validate_field.
  destruct (raw !! fname f) as [v|].
  - destruct (conforms (ftyp f) v) as [v'|] eqn:Hc; [|discriminate].
    intros [= Heq]. subst v'. now apply (conforms_not_oid _ _ _ n) in Hc.
  - destruct (fdefault f) as [d|]; [|discriminate]. congruence.
Qed.

Lemma validated_only_fields (schema : list field) (raw model : doc) (k : string) :
  model_validate schema raw = inr model ->
  find_field k schema = None ->
  model !! k = None.
Proof.
  intros Hval Hf. apply model_validate_fields in Hval.
  now rewrite (validated_lookup _ _ _ k Hval), Hf.
Qed.

Lemma dumped_only_fields (schema : list field) (raw model : doc) (k : string) :
  model_validate schema raw = inr model ->
  find_field k schema = None ->
  model_dump_exclude_none model !! k = None.
Proof.
  intros Hval Hf. apply dump_lookup_None. left.
  eapply validated_only_fields; eassumption.
Qed.

Lemma dumped_no_oid (schema : list field) (raw model : doc) (k : string) (n : N) :
  Forall (fun f => fdefault f <> Some (VOid n)) schema ->
  model_validate schema raw = inr model ->
  model_dump_exclude_none model !! k <> Some (VOid n).
Proof.
  intros Hdef Hval Hk. apply dump_lookup in Hk as [Hk _].
  now apply (validated_no_oid _ _ _ _ _ Hdef Hval) in Hk.
Qed.

(** A document without ObjectIds, fetched with its new [_id], is
    serialised to itself with the id as a string. *)
Lemma serialize_fetched (data : doc) (n : N) :
  data !! "_id" = None ->
  (forall k i, data !! k <> Some (VOid i)) ->
  _serialize (Some (<["_id" := VOid n]> data))
  = Some (<["id" := VStr (oid_str n)]> data).
Proof.
  intros Hid Hoid.
  rewrite serialize_some.
  2: { rewrite dom_insert_L. intros He.
       assert (Hin : "_id" ∈ ({["_id"]} ∪ dom data : gset string))
         by (apply elem_of_union_l, elem_of_singleton; reflexivity).
       rewrite He in Hin. now apply not_elem_of_empty in Hin. }
  rewrite lookup_insert_eq. cbn [str_of].
  rewrite delete_insert_eq, (delete_id _ _ Hid).
  rewrite fmap_insert. do 2 f_equal.
  apply map_eq. intros k. rewrite lookup_fmap.
  destruct (data !! k) as [v|] eqn:Hv; [|reflexivity].
  cbn. f_equal. destruct v; try reflexivity. now destruct (Hoid k n0).
Qed.

Lemma vehicle_defaults_plain (n : N) :
  Forall (fun f => fdefault f <> Some (VOid n)) CreateVehiclePayload.
Proof. repeat constructor; discriminate. Qed.

Lemma part_defaults_plain (n : N) :
  Forall (fun f => fdefault f <> Some (VOid n)) PartPayload.
Proof. repeat constructor; discriminate. Qed.

(** POST /vehicles and POST /parts answer with the document they have
    stored, plus its id; the id reads back as the key under which the
    document is stored, and nothing else in the store changes. *)
Theorem creation_answers_stored_document (raw payload : doc) (w : World) :
  (next_oid (db w) < 2 ^ 96)%N ->
  let d := model_dump_exclude_none payload in
  let n := next_oid (db w) in
  (ObjectId (oid_str n) = Some (oid_bytes n) /\ oid_number (oid_bytes n) = Some n) /\
  (model_validate CreateVehiclePayload raw = inr payload ->
   insert_fault (db w) vehicle d = None ->
   post_vehicles raw w
   = (Return (R200 (Some (<["id" := VStr (oid_str n)]> d))),
      mkWorld (mkStore (<[n := d]> (vehicles (db w))) (events (db w)) (parts (db w))
                       (N.succ n))
              (ticks w))) /\
  (model_validate PartPayload raw = inr payload ->
   insert_fault (db w) part d = None ->
   post_parts raw w
   = (Return (R200 (Some (<["id" := VStr (oid_str n)]> d))),
      mkWorld (mkStore (vehicles (db w)) (events (db w)) (<[n := d]> (parts (db w)))
                       (N.succ n))
              (ticks w))).
Proof.
  intros Hid d n.
  split; [split; [apply ObjectId_oid_str | now apply oid_number_bytes]|]. split.
  - intros Hval Hok. unfold post_vehicles.
    rewrite (endpoint_valid _ _ _ _ _ Hval), (create_vehicle_request _ _ Hok Hid).
    rewrite serialize_fetched; [reflexivity | |].
    + now apply (dumped_only_fields _ _ _ _ Hval).
    + intros k i. apply (dumped_no_oid _ _ _ _ _ (vehicle_defaults_plain i) Hval).
  - intros Hval Hok. unfold post_parts.
    rewrite (endpoint_valid _ _ _ _ _ Hval), (register_part_request _ _ Hok Hid).
    rewrite serialize_fetched; [reflexivity | |].
    + now apply (dumped_only_fields _ _ _ _ Hval).
    + intros k i. apply (dumped_no_oid _ _ _ _ _ (part_defaults_plain i) Hval).
Qed.

(** When the store refuses the document, each creation endpoint fails
    with the store's message and the store is as it was. *)
Theorem refused_document_is_not_stored (raw payload : doc) (w : World) (e : string) :
  (model_validate CreateVehiclePayload raw = inr payload ->
   insert_fault (db w) vehicle (model_dump_exclude_none payload) = Some e ->
   post_vehicles raw w = (Raise e, w)) /\
  (model_validate PartPayload raw = inr payload ->
   insert_fault (db w) part (model_dump_exclude_none payload) = Some e ->
   post_parts raw w = (Raise e, w)) /\
  (model_validate EventPayload raw = inr payload ->
   insert_fault (db w) event (event_data payload w) = Some e ->
   post_events raw w = (Raise e, mkWorld (db w) (S (ticks w)))).
Proof.
  split; [|split]; intros Hval Hno.
  - unfold post_vehicles. rewrite (endpoint_valid _ _ _ _ _ Hval).
    unfold create_vehicle. unfold bind at 1. unfold create_document at 1.
    now rewrite Hno.
  - unfold post_parts. rewrite (endpoint_valid _ _ _ _ _ Hval).
    unfold register_part. unfold bind at 1. unfold create_document at 1.
    now rewrite Hno.
  - unfold post_events. rewrite (endpoint_valid _ _ _ _ _ Hval).
    now rewrite (log_event_refused _ _ _ Hno).
Qed.

(** A key of the body that is not a field of the request model is never
    stored by a creation endpoint. *)
Theorem unknown_keys_are_not_stored (raw payload : doc) (w : World) (k : string) :
  (model_validate CreateVehiclePayload raw = inr payload ->
   insert_fault (db w) vehicle (model_dump_exclude_none payload) = None ->
   find_field k CreateVehiclePayload = None ->
   exists d, vehicles (db (snd (post_vehicles raw w))) !! next_oid (db w) = Some d /\
             d !! k = None) /\
  (model_validate PartPayload raw = inr payload ->
   insert_fault (db w) part (model_dump_exclude_none payload) = None ->
   find_field k PartPayload = None ->
   exists d, parts (db (snd (post_parts raw w))) !! next_oid (db w) = Some d /\
             d !! k = None) /\
  (model_validate EventPayload raw = inr payload ->
   insert_fault (db w) event (event_data payload w) = None ->
   find_field k EventPayload = None ->
   exists d, events (db (snd (post_events raw w))) !! next_oid (db w) = Some d /\
             d !! k = None).
Proof.
  split; [|split]; intros Hval Hok Hk.
  - exists (model_dump_exclude_none payload). split.
    + unfold post_vehicles. rewrite (endpoint_world _ _ _ _ _ Hval).
      unfold create_vehicle. unfold bind at 1. unfold create_document at 1.
      rewrite Hok. unfold bind at 1.
      match goal with |- context [to_ObjectId ?v ?w1] =>
        pose proof (to_ObjectId_world v w1) as Hw;
        destruct (to_ObjectId v w1) as [[oid|err] w2]; cbn [snd] in Hw; subst w2
      end; cbn; apply lookup_insert_eq.
    + now apply (dumped_only_fields _ _ _ _ Hval).
  - exists (model_dump_exclude_none payload). split.
    + unfold post_parts. rewrite (endpoint_world _ _ _ _ _ Hval).
      unfold register_part. unfold bind at 1. unfold create_document at 1.
      rewrite Hok. unfold bind at 1.
      match goal with |- context [to_ObjectId ?v ?w1] =>
        pose proof (to_ObjectId_world v w1) as Hw;
        destruct (to_ObjectId v w1) as [[oid|err] w2]; cbn [snd] in Hw; subst w2
      end; cbn; apply lookup_insert_eq.
    + now apply (dumped_only_fields _ _ _ _ Hval).
  - exists (event_data payload w). split.
    + unfold post_events. rewrite (endpoint_world _ _ _ _ _ Hval).
      now apply log_event_records.
    + unfold event_data. rewrite setdefault_other.
      * now apply (dumped_only_fields _ _ _ _ Hval).
      * intros <-. discriminate.
Qed.

(** ** Required fields *)

Lemma validate_fields_reports (schema : list field) (raw : doc) (f : field) (e : verror) :
  In f schema ->
  validate_field f raw = inl e ->
  In e (validate_fields schema raw).1.
Proof.
  intros Hin Hf. induction schema as [|g rest IH]; [destruct Hin|].
  cbn [validate_fields].
  destruct (validate_fields rest raw) as [errs m] eqn:Hrest.
  destruct Hin as [->|Hin].
  - rewrite Hf. cbn. now left.
  - specialize (IH Hin). cbn [fst] in IH.
    destruct (validate_field g raw); cbn; [now right | exact IH].
Qed.

Lemma model_validate_rejects (schema : list field) (raw : doc) (f : field) (e : verror) :
  In f schema ->
  validate_field f raw = inl e ->
  exists errs, model_validate schema raw = inl errs /\ In e errs.
Proof.
  intros Hin Hf.
  pose proof (validate_fields_reports _ _ _ _ Hin Hf) as He.
  unfold model_validate.
  destruct (validate_fields schema raw) as [[|e0 errs] m]; cbn [fst] in He.
  - destruct He.
  - exists (e0 :: errs). now split.
Qed.

(** An event without a string [event_type], or a part without a string
    [name], is answered 422 with an error that names the field; nothing
    is stored and the clock is not read. *)
Theorem missing_required_field_is_rejected (raw : doc) (w : World) :
  ((forall s, raw !! "event_type" <> Some (VStr s)) ->
   exists errs e,
     post_events raw w = (Return (R422 errs), w) /\
     In e errs /\ loc e = "event_type") /\
  ((forall s, raw !! "name" <> Some (VStr s)) ->
   exists errs e,
     post_parts raw w = (Return (R422 errs), w) /\
     In e errs /\ loc e = "name").
Proof.
  split; intros Hno.
  - assert (Hbad : exists e, validate_field (required "event_type" TStr) raw = inl e
                             /\ loc e = "event_type").
    { unfold validate_field. cbn [fname ftyp fdefault required].
      destruct (raw !! "event_type") as [v|] eqn:Hv; [|eauto].
      destruct v; cbn; eauto. now destruct (Hno s). }
    destruct Hbad as (e & He & Hloc).
    destruct (model_validate_rejects EventPayload raw (required "event_type" TStr) e)
      as (errs & Hval & Hin); [cbn; tauto | exact He |].
    exists errs, e. split; [|now split].
    unfold post_events. now apply endpoint_invalid.
  - assert (Hbad : exists e, validate_field (required "name" TStr) raw = inl e
                             /\ loc e = "name").
    { unfold validate_field. cbn [fname ftyp fdefault required].
      destruct (raw !! "name") as [v|] eqn:Hv; [|eauto].
      destruct v; cbn; eauto. now destruct (Hno s). }
    destruct Hbad as (e & He & Hloc).
    destruct (model_validate_rejects PartPayload raw (required "name" TStr) e)
      as (errs & Hval & Hin); [cbn; tauto | exact He |].
    exists errs, e. split; [|now split].
    unfold post_parts. now apply endpoint_invalid.
Qed.

(** ** More on [sync] *)

(** Every ok entry of the response to a batch whose timestamps compare
    names a document of the final store that is the mutation's data
    exactly as sent (no defaults, no [null] stripped, unknown keys
    kept); only an event that came without [occurred_at] gains that one
    field. *)
Theorem sync_stores_data_as_sent (envelope : SyncEnvelope) (w : World) :
  comparable (timestamps envelope) = true ->
  exists applied rs w1,
    sorted client_timestamp (mutations envelope) = Return applied /\
    Permutation applied (mutations envelope) /\
    Steps w applied rs w1 /\
    sync envelope w
    = (Return (mkSyncResponse rs (clock (ticks w1))), mkWorld (db w1) (S (ticks w1))) /\
    Forall2 (stored_as_sent w1) applied rs.
Proof.
  intros Hc.
  destruct (sync_runs envelope w Hc) as (rs & w1 & Hs & Hrun & Hsync).
  exists (sort_by timestamp (mutations envelope)), rs, w1.
  split; [exact Hs|]. split; [apply sort_by_perm|].
  split; [exact Hrun|]. split; [exact Hsync|].
  exact (Steps_stored_as_sent _ _ _ _ Hrun).
Qed.

Lemma sort_by_unique (l1 l2 : list Mutation) :
  List.NoDup (map timestamp l1) ->
  Permutation l1 l2 ->
  sort_by timestamp l1 = sort_by timestamp l2.
Proof.
  intros Hnd Hperm.
  assert (H1 : StronglySorted (key_le timestamp) (sort_by timestamp l1))
    by apply sort_by_ascending.
  assert (H2 : StronglySorted (key_le timestamp) (sort_by timestamp l2))
    by apply sort_by_ascending.
  assert (Hp : Permutation (sort_by timestamp l1) (sort_by timestamp l2)).
  { rewrite !sort_by_perm. exact Hperm. }
  assert (Hnd1 : List.NoDup (map timestamp (sort_by timestamp l1))).
  { eapply Permutation_NoDup; [|exact Hnd].
    apply Permutation_map. symmetry. apply sort_by_perm. }
  revert H1 H2 Hp Hnd1.
  generalize (sort_by timestamp l1) as a, (sort_by timestamp l2) as b.
  clear. induction a as [|x a IH]; intros b Ha Hb Hp Hnd.
  - apply Permutation_nil in Hp. now subst.
  - destruct b as [|y b]; [symmetry in Hp; now apply Permutation_nil in Hp|].
    apply StronglySorted_inv in Ha as [Ha Hx].
    apply StronglySorted_inv in Hb as [Hb Hy].
    rewrite List.Forall_forall in Hx, Hy.
    assert (Hxy : x = y).
    { assert (Hxin : In x (y :: b)) by (eapply Permutation_in; [exact Hp | now left]).
      assert (Hyin : In y (x :: a))
        by (eapply Permutation_in; [symmetry; exact Hp | now left]).
      destruct Hxin as [->|Hxin]; [reflexivity|].
      destruct Hyin as [->|Hyin]; [reflexivity|].
      specialize (Hx _ Hyin). specialize (Hy _ Hxin). unfold key_le in Hx, Hy.
      cbn [map] in Hnd. apply List.NoDup_cons_iff in Hnd as [Hnotin _].
      exfalso. apply Hnotin. apply in_map_iff. exists y. split; [lia | exact Hyin]. }
    subst y. f_equal. apply IH; try assumption.
    + eapply Permutation_cons_inv; exact Hp.
    + cbn [map] in Hnd. now apply List.NoDup_cons_iff in Hnd as [_ Hnd].
Qed.

(** Distinct timestamps of one kind have distinct readings. *)
Lemma distinct_readings (k : bool) (l : list Mutation) :
  Forall (fun m => is_aware (client_timestamp m) = k) l ->
  List.NoDup (map client_timestamp l) -> List.NoDup (map timestamp l).
Proof.
  induction 1 as [|x l Hx Hl IH]; cbn [map]; [constructor|].
  intros Hnd. apply List.NoDup_cons_iff in Hnd as [Hnotin Hnd].
  apply List.NoDup_cons_iff. split; [|now apply IH].
  intros Hin. apply Hnotin.
  apply in_map_iff in Hin as (y & Hy & Hyin).
  apply in_map_iff. exists y. split; [|exact Hyin].
  rewrite List.Forall_forall in Hl. specialize (Hl _ Hyin).
  unfold timestamp in Hy.
  destruct (client_timestamp x), (client_timestamp y); cbn in *; congruence.
Qed.

Lemma sorted_unique (l1 l2 : list Mutation) :
  List.NoDup (map client_timestamp l1) ->
  Permutation l1 l2 ->
  sorted client_timestamp l1 = sorted client_timestamp l2.
Proof.
  intros Hnd Hperm.
  pose proof (comparable_perm _ _ Hperm) as Hsame.
  destruct (comparable (map client_timestamp l1)) eqn:Hc.
  - rewrite (sorted_comparable _ Hc), (sorted_comparable l2) by congruence.
    f_equal. apply sort_by_unique; [|exact Hperm].
    apply comparable_kind in Hc as [k Hk]. now apply (distinct_readings k).
  - rewrite (sorted_mixed _ Hc), (sorted_mixed l2) by congruence. reflexivity.
Qed.

(** When no two mutations of a batch carry the same timestamp, the
    order in which the client lists them does not matter: every
    rearrangement of the batch gets the same response and leaves the
    same store. *)
Theorem sync_ignores_envelope_order (ms1 ms2 : list Mutation) (w : World) :
  List.NoDup (map client_timestamp ms1) ->
  Permutation ms1 ms2 ->
  sync (mkEnvelope ms1) w = sync (mkEnvelope ms2) w.
Proof.
  intros Hnd Hperm. unfold sync. cbn [mutations].
  now rewrite (sorted_unique _ _ Hnd Hperm).
Qed.

Lemma apply_mutation_accounts (m : Mutation) (w : World) (r : doc) (w1 : World) :
  apply_mutation m w = (Return r, w1) ->
  ticks w1 = (ticks w + (if String.eqb (op m) "logEvent" then 1 else 0))%nat.
Proof.
  rewrite apply_mutation_eq. unfold staged.
  destruct (String.eqb (op m) "createVehicle") eqn:E1.
  { apply String.eqb_eq in E1. rewrite E1. cbn [String.eqb Ascii.eqb Bool.eqb].
    destruct (insert_fault _ _ _); intros [= <- <-]; cbn [db ticks]; lia. }
  destruct (String.eqb (op m) "logEvent") eqn:E2.
  { cbn [db ticks].
    destruct (insert_fault _ _ _); intros [= <- <-]; cbn [db ticks]; lia. }
  destruct (String.eqb (op m) "registerPart") eqn:E3.
  { destruct (insert_fault _ _ _); intros [= <- <-]; cbn [db ticks]; lia. }
  intros [= <- <-]. lia.
Qed.

Lemma Steps_accounts (w : World) (ms : list Mutation) (rs : list doc) (w' : World) :
  Steps w ms rs w' ->
  ticks w'
  = (ticks w + length (List.filter (fun m => String.eqb (op m) "logEvent") ms))%nat.
Proof.
  induction 1 as [|w m r w1 ms rs w2 Hm _ IHt].
  - cbn. lia.
  - apply apply_mutation_accounts in Hm as Ht.
    cbn [List.filter].
    destruct (String.eqb (op m) "logEvent"); cbn [length]; lia.
Qed.

(** [sync] reads the server clock once for every logEvent mutation of
    the batch, whether or not the event came with [occurred_at] and
    whether or not the store takes it, and once more for
    [server_time], which is therefore the reading that follows those of
    the events; a batch that [sorted] refuses reads no clock at all. *)
Theorem sync_reads_the_clock_once_per_event (envelope : SyncEnvelope) (w : World) :
  (comparable (timestamps envelope) = true /\
   exists rs w',
     sync envelope w
     = (Return (mkSyncResponse rs (clock (ticks w + event_count envelope))), w') /\
     ticks w' = S (ticks w + event_count envelope) /\
     length rs = length (mutations envelope))
  \/ (comparable (timestamps envelope) = false /\
      sync envelope w
      = (Raise cannot_compare, w)).
Proof.
  destruct (comparable (timestamps envelope)) eqn:Hc;
    [left | right; split; [reflexivity | now apply sync_refuses]].
  split; [reflexivity|].
  destruct (sync_runs envelope w Hc) as (rs & w1 & _ & Hrun & Hsync).
  pose proof (Steps_accounts _ _ _ _ Hrun) as Ht.
  assert (Hn : ticks w1 = (ticks w + event_count envelope)%nat).
  { rewrite Ht. f_equal. unfold event_count.
    rewrite <- sort_by_filter. apply sort_by_length. }
  exists rs, (mkWorld (db w1) (S (ticks w1))).
  split; [now rewrite <- Hn|].
  split; [cbn [ticks]; now rewrite Hn|].
  rewrite (Steps_length _ _ _ _ Hrun). apply sort_by_length.
Qed.

(** ** More on the rule engine *)

(** Of two status-changing events for the same vehicle the later one
    wins: the vehicle ends as if only the second had been logged. *)
Theorem later_event_wins
    (p1 p2 : doc) (w : World) (vid1 vid2 et1 et2 : string) (i1 i2 : list N) (oid : N)
    (v : doc) :
  (forall s d, insert_fault s event d = None) ->
  (next_oid (db w) + 1 < 2 ^ 96)%N ->
  vehicles (db w) !! oid = Some v ->
  p1 !! "vehicle_id" = Some (VStr vid1) ->
  ObjectId vid1 = Some i1 -> oid_number i1 = Some oid ->
  p1 !! "event_type" = Some (VStr et1) ->
  existsb (String.eqb et1) ["dismantling"; "scrap"] = true ->
  p2 !! "vehicle_id" = Some (VStr vid2) ->
  ObjectId vid2 = Some i2 -> oid_number i2 = Some oid ->
  p2 !! "event_type" = Some (VStr et2) ->
  existsb (String.eqb et2) ["dismantling"; "scrap"] = true ->
  exists b1 w1 b2 w2,
    log_event p1 w = (Return b1, w1) /\
    log_event p2 w1 = (Return b2, w2) /\
    vehicles (db w2) !! oid
    = Some (<["status" := VStr (if String.eqb et2 "dismantling"
                                then "dismantled" else "scrapped")]>
              (<["updated_at" := VDate (clock (3 + ticks w))]> v)) /\
    forall other, other <> oid -> vehicles (db w2) !! other = vehicles (db w) !! other.
Proof.
  intros Hok Hid Hv Hv1 Ho1 Hn1 He1 Hin1 Hv2 Ho2 Hn2 He2 Hin2.
  destruct (log_event_fires p1 w vid1 et1 i1 oid (Hok _ _) ltac:(lia)
              Hv1 Ho1 Hn1 He1 Hin1)
    as [b1 Hrun1].
  match type of Hrun1 with _ = (_, ?x) => set (w1 := x) in * end.
  assert (Hveh1 : vehicles (db w1)
                  = <[oid := <["status" := VStr (if String.eqb et1 "dismantling"
                                                 then "dismantled" else "scrapped")]>
                               (<["updated_at" := VDate (clock (S (ticks w)))]> v)]>
                      (vehicles (db w))).
  { subst w1. cbn [db]. now apply fired_vehicles. }
  assert (Hid1 : (next_oid (db w1) < 2 ^ 96)%N).
  { subst w1. cbn [db]. unfold store_update. cbn.
    destruct (vehicles (db w) !! oid); cbn; lia. }
  destruct (log_event_fires p2 w1 vid2 et2 i2 oid (Hok _ _) Hid1
              Hv2 Ho2 Hn2 He2 Hin2)
    as [b2 Hrun2].
  match type of Hrun2 with _ = (_, ?x) => set (w2 := x) in * end.
  exists b1, w1, b2, w2. split; [exact Hrun1|]. split; [exact Hrun2|].
  assert (Hveh2 : vehicles (db w2)
                  = <[oid := <["status" := VStr (if String.eqb et2 "dismantling"
                                                 then "dismantled" else "scrapped")]>
                               (<["updated_at" := VDate (clock (3 + ticks w))]> v)]>
                      (vehicles (db w))).
  { subst w2. cbn [db].
    erewrite fired_vehicles by (rewrite Hveh1; apply lookup_insert_eq).
    rewrite Hveh1, insert_insert_eq. f_equal.
    subst w1. cbn [ticks].
    change (3 + ticks w)%nat with (S (S (S (ticks w)))).
    apply map_eq. intros k.
    rewrite !lookup_insert. repeat destruct (decide _); congruence. }
  rewrite Hveh2. split; [apply lookup_insert_eq|].
  intros other Hne. now apply lookup_insert_ne.
Qed.

(** An event without a vehicle reference (the key left out, sent as
    [null] or as the empty string) never touches a vehicle, whatever
    its type. *)
Theorem event_without_reference_touches_no_vehicle (payload : doc) (w : World) :
  insert_fault (db w) event (event_data payload w) = None ->
  (next_oid (db w) < 2 ^ 96)%N ->
  payload !! "vehicle_id" = None \/ payload !! "vehicle_id" = Some VNull
  \/ payload !! "vehicle_id" = Some (VStr "") ->
  exists body w',
    log_event payload w = (Return body, w') /\
    vehicles (db w') = vehicles (db w) /\
    events (db w') !! next_oid (db w) = Some (event_data payload w).
Proof.
  intros Hok Hid Href.
  assert (Hno : rule_applies (event_data payload w) = false).
  { unfold rule_applies, get, event_data.
    rewrite setdefault_other by discriminate.
    destruct Href as [H|[H|H]].
    - assert (Hd : model_dump_exclude_none payload !! "vehicle_id" = None)
        by (apply dump_lookup_None; now left).
      now rewrite Hd.
    - assert (Hd : model_dump_exclude_none payload !! "vehicle_id" = None)
        by (apply dump_lookup_None; now right).
      now rewrite Hd.
    - assert (Hd : model_dump_exclude_none payload !! "vehicle_id" = Some (VStr ""))
        by (apply dump_lookup; now split).
      now rewrite Hd. }
  destruct (log_event_skips payload w Hok Hid Hno) as [body Hrun].
  eexists body, _. split; [exact Hrun|]. cbn [db].
  split; [reflexivity|].
  change (events (store_insert event (event_data payload w) (db w)))
    with (<[next_oid (db w) := event_data payload w]> (events (db w))).
  apply lookup_insert_eq.
Qed.

(** ** Listing and history *)

Lemma serialize_doc_clean (d0 : doc) :
  exists d, _serialize (Some d0) = Some d /\
            d !! "_id" = None /\ forall k n, d !! k <> Some (VOid n).
Proof.
  destruct (decide (dom d0 = ∅)) as [He|Hne].
  - exists d0. split; [now apply serialize_empty|].
    apply dom_empty_inv_L in He. subst d0. split; [apply lookup_empty|].
    intros k n. now rewrite lookup_empty.
  - eexists. split; [apply (serialize_some _ Hne)|]. split.
    + rewrite lookup_fmap, renamed_no_id_key. reflexivity.
    + intros k n. apply stringified_no_oid.
Qed.

Lemma serialize_all_clean (docs : list doc) (e : option doc) :
  In e (serialize_all docs) ->
  exists d, e = Some d /\ d !! "_id" = None /\ forall k n, d !! k <> Some (VOid n).
Proof.
  unfold serialize_all. intros Hin. apply in_map_iff in Hin as (d0 & <- & _).
  destruct (serialize_doc_clean d0) as (d & -> & Hclean). eauto.
Qed.

Lemma serialize_string_field (d0 : doc) (k s : string) :
  k <> "_id" -> k <> "id" ->
  d0 !! k = Some (VStr s) ->
  exists d, _serialize (Some d0) = Some d /\ d !! k = Some (VStr s).
Proof.
  intros Hk Hk' Hv.
  assert (Hne : dom d0 <> ∅).
  { intros He. apply dom_empty_inv_L in He. subst d0. now rewrite lookup_empty in Hv. }
  eexists. split; [apply (serialize_some _ Hne)|].
  rewrite lookup_fmap.
  destruct (d0 !! "_id") as [v|].
  - rewrite lookup_insert_ne by congruence.
    rewrite lookup_delete_ne by congruence. now rewrite Hv.
  - now rewrite Hv.
Qed.

(** GET /api/vehicles: a limit below 1 or above 200 is answered 422
    whatever the store holds; otherwise the store is asked with the
    limit (50 when none is given) and every document of the answer is
    serialised, so none has an [_id] key or an ObjectId value; an empty
    status string filters nothing. *)
Theorem vehicle_listing (status : option string) (limit : option Z) (w : World) :
  (forall l, limit = Some l -> (l < 1 \/ 200 < l)%Z ->
     exists e, get_vehicles status limit w = (Return (L422 [e]), w) /\ loc e = "limit") /\
  (forall l, (limit = Some l /\ (1 <= l <= 200)%Z) \/ (limit = None /\ l = 50%Z) ->
     get_vehicles status limit w
     = (Return (L200 (serialize_all
                        (get_documents (db w) vehicle (status_filter status) l))), w) /\
     forall e, In e (serialize_all (get_documents (db w) vehicle (status_filter status) l)) ->
       exists d, e = Some d /\ d !! "_id" = None /\ forall k n, d !! k <> Some (VOid n)) /\
  get_vehicles (Some "") limit w = get_vehicles None limit w /\
  (forall s, s <> "" -> status_filter (Some s) = <["status" := VStr s]> ∅).
Proof.
  split; [|split; [|split]].
  - intros l -> Hl. unfold get_vehicles.
    destruct (l <? 1)%Z eqn:E1; [eexists; split; reflexivity|].
    destruct (200 <? l)%Z eqn:E2; [eexists; split; reflexivity|].
    apply Z.ltb_ge in E1, E2. lia.
  - intros l Hl. split; [|apply serialize_all_clean].
    unfold get_vehicles.
    destruct Hl as [[-> Hl]|[-> ->]]; [|reflexivity].
    destruct (l <? 1)%Z eqn:E1; [apply Z.ltb_lt in E1; lia|].
    destruct (200 <? l)%Z eqn:E2; [apply Z.ltb_lt in E2; lia|].
    reflexivity.
  - reflexivity.
  - intros s Hs. unfold status_filter. cbn [truthy].
    apply String.eqb_neq in Hs. now rewrite Hs.
Qed.

(** GET /api/vehicles/{id}/history: an id that [ObjectId] rejects, as
    it does every string that is not 24 characters long, is answered
    400; otherwise the events are looked up under [str] of the
    ObjectId, its bytes in lower-case digits, so two spellings of one
    ObjectId get the same answer, and (for a cursor that yields only
    matching documents) every event listed names the vehicle by that
    lower-case string. *)
Theorem history_looks_up_the_canonical_id (vehicle_id : string) (w : World) :
  (forall s c key v k d,
     In d (find_sorted s c (<[key := VStr v]> ∅) k) -> d !! key = Some (VStr v)) ->
  (String.length vehicle_id <> 24%nat ->
   get_vehicle_history vehicle_id w = (Return (L400 "Invalid vehicle id"), w)) /\
  (ObjectId vehicle_id = None ->
   get_vehicle_history vehicle_id w = (Return (L400 "Invalid vehicle id"), w)) /\
  (forall b, ObjectId vehicle_id = Some b ->
     exists docs,
       get_vehicle_history vehicle_id w = (Return (L200 docs), w) /\
       (forall other, ObjectId other = Some b ->
                      get_vehicle_history other w = (Return (L200 docs), w)) /\
       forall e, In e docs ->
         exists d, e = Some d /\ d !! "vehicle_id" = Some (VStr (hexlify b))).
Proof.
  intros Hsound. split; [|split].
  - intros Hlen. unfold get_vehicle_history, ObjectId.
    apply Nat.eqb_neq in Hlen. now rewrite Hlen.
  - intros Hbad. unfold get_vehicle_history. now rewrite Hbad.
  - intros b Hb. eexists. split; [|split].
    + unfold get_vehicle_history. rewrite Hb. reflexivity.
    + intros other Ho. unfold get_vehicle_history. now rewrite Ho.
    + intros e He. unfold serialize_all in He.
      apply in_map_iff in He as (d0 & <- & Hin).
      apply Hsound in Hin.
      destruct (serialize_string_field d0 "vehicle_id" (hexlify b)) as (d & -> & Hd);
        [discriminate | discriminate | exact Hin |].
      eauto.
Qed.

(** ** The diagnostic endpoint *)

Lemma take_chars_count (s : string) : forall n, (char_count (take_chars n s) <= n)%nat.
Proof.
  induction s as [|c s IH]; intros n; cbn; [lia|].
  destruct (is_continuation c) eqn:Hc.
  - cbn. rewrite Hc. apply IH.
  - destruct n as [|n]; cbn; [lia|]. rewrite Hc. specialize (IH n). lia.
Qed.

Lemma take_chars_prefix (s : string) : forall n, exists rest, s = take_chars n s ++ rest.
Proof.
  induction s as [|c s IH]; intros n; cbn; [now exists ""|].
  destruct (is_continuation c).
  - destruct (IH n) as [rest Hr]. exists rest.
    change (String c s = String c (take_chars n s ++ rest)). now rewrite <- Hr.
  - destruct n as [|n]; [now exists (String c s)|].
    destruct (IH n) as [rest Hr]. exists rest.
    change (String c s = String c (take_chars n s ++ rest)). now rewrite <- Hr.
Qed.

Ltac read_field :=
  repeat (rewrite lookup_insert_ne by discriminate); apply lookup_insert_eq.

(** GET /test: [database_url] and [database_name] tell only whether the
    two environment variables are set; what the connection branch
    wrote there is overwritten in every case. *)
Theorem diagnostics_report_environment_only
    (db : option Database) (getenv : string -> option string) :
  test_database db getenv !! "database_url"
  = Some (VStr (if env_set (getenv "DATABASE_URL") then "✅ Set" else "❌ Not Set")) /\
  test_database db getenv !! "database_name"
  = Some (VStr (if env_set (getenv "DATABASE_NAME") then "✅ Set" else "❌ Not Set")) /\
  forall db', test_database db getenv !! "database_url"
              = test_database db' getenv !! "database_url" /\
              test_database db getenv !! "database_name"
              = test_database db' getenv !! "database_name".
Proof.
  assert (Hurl : forall d, test_database d getenv !! "database_url"
            = Some (VStr (if env_set (getenv "DATABASE_URL")
                          then "✅ Set" else "❌ Not Set"))).
  { intros d. unfold test_database.
    rewrite lookup_insert_ne by discriminate. apply lookup_insert_eq. }
  assert (Hname : forall d, test_database d getenv !! "database_name"
            = Some (VStr (if env_set (getenv "DATABASE_NAME")
                          then "✅ Set" else "❌ Not Set"))).
  { intros d. unfold test_database. apply lookup_insert_eq. }
  split; [apply Hurl|]. split; [apply Hname|].
  intros db'. now rewrite !Hurl, !Hname.
Qed.

(** GET /test lists at most ten collections: the first ten of the
    listing when the database is there and answers, none otherwise;
    [connection_status] tells whether the handle is there; when the
    listing raises, the answer carries at most the first 80 characters
    of the message. *)
Theorem diagnostics_list_at_most_ten_collections
    (db : option Database) (getenv : string -> option string) :
  exists names,
    test_database db getenv !! "collections" = Some (VList (map VStr names)) /\
    (length names <= 10)%nat /\
    match db with
    | None =>
        names = [] /\
        test_database db getenv !! "connection_status" = Some (VStr "Not Connected")
    | Some handle =>
        test_database db getenv !! "connection_status" = Some (VStr "Connected") /\
        match collection_names handle with
        | Return listing =>
            names = firstn 10 listing /\
            test_database db getenv !! "database" = Some (VStr "✅ Connected & Working")
        | Raise e =>
            names = [] /\
            exists shown rest,
              test_database db getenv !! "database"
              = Some (VStr ("⚠️ Connected but Error: " ++ shown)) /\
              e = shown ++ rest /\ (char_count shown <= 80)%nat
        end
    end.
Proof.
  destruct db as [handle|].
  - destruct (collection_names handle) as [listing|e] eqn:Hl.
    + exists (firstn 10 listing). unfold test_database. rewrite Hl.
      split; [read_field|]. split; [rewrite length_take; lia|].
      split; [read_field|]. split; [reflexivity | read_field].
    + exists []. unfold test_database. rewrite Hl.
      split; [read_field|]. split; [cbn; lia|].
      split; [read_field|]. split; [reflexivity|].
      destruct (take_chars_prefix e 80) as [rest Hrest].
      exists (take_chars 80 e), rest.
      split; [read_field|]. split; [exact Hrest | apply take_chars_count].
  - exists []. unfold test_database.
    split; [read_field|]. split; [cbn; lia|].
    split; [reflexivity | read_field].
Qed.

(** ** Across the handlers *)

Ltac evaluate_closed :=
  match goal with |- ?l = ?r => vm_cast_no_check (@eq_refl _ r) end.

(** Every field of a vehicle is optional: a body with none of the
    model's keys (the empty body, or unknown keys only) is accepted,
    and the vehicle stored holds exactly the four enumerated fields, at
    "unknown". *)
Theorem vehicle_from_empty_body (raw : doc) (w : World) :
  (forall f, In f CreateVehiclePayload -> raw !! fname f = None) ->
  insert_fault (db w) vehicle
    (<["engine_condition" := VStr "unknown"]> (<["body_condition" := VStr "unknown"]>
       (<["damage_level" := VStr "unknown"]> (<["status" := VStr "unknown"]> ∅)))) = None ->
  (next_oid (db w) < 2 ^ 96)%N ->
  exists body w',
    post_vehicles raw w = (Return (R200 body), w') /\
    vehicles (db w') !! next_oid (db w)
    = Some (<["engine_condition" := VStr "unknown"]> (<["body_condition" := VStr "unknown"]>
              (<["damage_level" := VStr "unknown"]> (<["status" := VStr "unknown"]> ∅)))).
Proof.
  intros Hraw Hok Hid.
  set (defaults :=
         <["vin" := VNull]> (<["make" := VNull]> (<["model" := VNull]>
         (<["year" := VNull]> (<["engine_condition" := VStr "unknown"]>
         (<["body_condition" := VStr "unknown"]> (<["damage_level" := VStr "unknown"]>
         (<["photos" := VNull]> (<["last_known_location" := VNull]>
         (<["owner_id" := VNull]> (<["status" := VStr "unknown"]>
            (∅ : gmap string value)))))))))))).
  assert (Hval : model_validate CreateVehiclePayload raw = inr defaults).
  { unfold model_validate, CreateVehiclePayload. cbn [validate_fields].
    unfold validate_field.
    rewrite !Hraw by (cbn; tauto). reflexivity. }
  assert (Hdump : model_dump_exclude_none defaults
                  = <["engine_condition" := VStr "unknown"]>
                      (<["body_condition" := VStr "unknown"]>
                      (<["damage_level" := VStr "unknown"]>
                      (<["status" := VStr "unknown"]> ∅))))
    by (subst defaults; evaluate_closed).
  rewrite <- Hdump in Hok |- *.
  eexists _, _. split.
  - unfold post_vehicles. rewrite (endpoint_valid _ _ _ _ _ Hval).
    rewrite (create_vehicle_request _ _ Hok Hid). reflexivity.
  - cbn [db].
    change (vehicles (store_insert vehicle ?d (db w)))
      with (<[next_oid (db w) := d]> (vehicles (db w))).
    apply lookup_insert_eq.
Qed.

(** What the server itself writes into an enumerated field is within
    the enumeration of [schemas.py]: the status set by the rule
    engine, and the enumerated fields of a stored vehicle or part
    whenever those the client sent are. *)
Theorem server_keeps_enumerations (raw payload : doc) :
  (forall (data : doc) (t : Z) (s : string),
     rule_patch data t !! "status" = Some (VStr s) -> In s VehicleStatus) /\
  (model_validate CreateVehiclePayload raw = inr payload ->
   forall k enum,
     In (k, enum) [("engine_condition", ConditionLevel); ("body_condition", ConditionLevel);
                   ("damage_level", DamageLevel); ("status", VehicleStatus)] ->
     (forall s, raw !! k = Some (VStr s) -> In s enum) ->
     forall s, model_dump_exclude_none payload !! k = Some (VStr s) -> In s enum) /\
  (model_validate PartPayload raw = inr payload ->
   (forall s, raw !! "condition" = Some (VStr s) -> In s PartCondition) ->
   forall s, model_dump_exclude_none payload !! "condition" = Some (VStr s) ->
             In s PartCondition).
Proof.
  split; [|split].
  - intros data t s. unfold rule_patch. rewrite lookup_insert_eq.
    intros [= <-]. unfold derived_status.
    destruct (str_is (get "event_type" data) "dismantling"); cbn; tauto.
  - intros Hval k enum Hk Hclient s.
    assert (Hf : find_field k CreateVehiclePayload = Some (optional_str_unknown k)
                 /\ In "unknown" enum).
    { cbn in Hk.
      destruct Hk as [[= <- <-]|[[= <- <-]|[[= <- <-]|[[= <- <-]|[]]]]];
        (split; [reflexivity | cbn; tauto]). }
    destruct Hf as [Hf Hunknown].
    rewrite (stored_enum_field _ _ _ _ Hval Hf).
    destruct (raw !! k) as [v|] eqn:Hraw.
    + destruct (is_none v); [discriminate|]. intros [= ->]. now apply Hclient.
    + now intros [= <-].
  - intros Hval Hclient s.
    rewrite (stored_enum_field PartPayload raw payload "condition" Hval eq_refl).
    destruct (raw !! "condition") as [v|] eqn:Hraw.
    + destruct (is_none v); [discriminate|]. intros [= ->]. now apply Hclient.
    + intros [= <-]. cbn. tauto.
Qed.

Lemma Steps_created (w : World) (ms : list Mutation) (rs : list doc) (w' : World) :
  Steps w ms rs w' ->
  Forall2 (fun m (r : doc) =>
             op m = "createVehicle" -> r !! "status" = Some (VStr "ok") ->
             exists n, r !! "id" = Some (VStr (oid_str n)) /\
                       (n < next_oid (db w'))%N /\
                       vehicles (db w') !! n = Some (data m))
          ms rs.
Proof.
  induction 1 as [|w m r w1 ms rs w2 Hm Hrest IH]; constructor; [|exact IH].
  intros Hop Hstatus.
  destruct (apply_mutation_ok _ _ _ _ Hm Hstatus) as (c & d & wt & Hs & _ & -> & _ & ->).
  destruct (Steps_keeps _ _ _ _ Hrest) as (_ & Hnext & Hkept).
  cbn [db] in Hnext, Hkept.
  exists (next_oid (db w)). split; [reflexivity|].
  split; [cbn in Hnext; lia|].
  destruct (staged_cases _ _ _ _ _ Hs) as [(_ & -> & ->)|[(Hop' & _)|(Hop' & _)]];
    [|rewrite Hop in Hop'; discriminate..].
  rewrite (Hkept vehicle) by (cbn; lia).
  change (vehicles (store_insert vehicle (data m) (db w)))
    with (<[next_oid (db w) := data m]> (vehicles (db w))).
  apply lookup_insert_eq.
Qed.

(** The two-request way to dismantle a synced vehicle works: the id
    that [sync] returns for a createVehicle mutation of a batch whose
    timestamps compare, sent as [vehicle_id] of a dismantling or scrap
    event to POST /events, sets the status of exactly the document that
    the mutation created. *)
Theorem synced_vehicle_can_be_dismantled
    (envelope : SyncEnvelope) (w : World) (payload : doc) (et : string) :
  comparable (timestamps envelope) = true ->
  (forall s d, insert_fault s event d = None) ->
  (next_oid (db (snd (sync envelope w))) < 2 ^ 96)%N ->
  payload !! "event_type" = Some (VStr et) ->
  existsb (String.eqb et) ["dismantling"; "scrap"] = true ->
  exists applied resp w',
    sorted client_timestamp (mutations envelope) = Return applied /\
    sync envelope w = (Return resp, w') /\
    Forall2 (fun m (r : doc) =>
               op m = "createVehicle" -> r !! "status" = Some (VStr "ok") ->
               forall i, r !! "id" = Some (VStr i) ->
                         payload !! "vehicle_id" = Some (VStr i) ->
               exists body w'' b n,
                 ObjectId i = Some b /\
                 oid_number b = Some n /\
                 log_event payload w' = (Return body, w'') /\
                 vehicles (db w'') !! n
                 = Some (<["status" := VStr (if String.eqb et "dismantling"
                                             then "dismantled" else "scrapped")]>
                           (<["updated_at" := VDate (clock (S (ticks w')))]> (data m))))
            applied (results resp).
Proof.
  intros Hc Hok Hbound Het Hin.
  destruct (sync_runs envelope w Hc) as (rs & w1 & Hs & Hrun & Hsync).
  rewrite Hsync in Hbound |- *. cbn [snd db] in Hbound.
  eexists _, _, _. split; [exact Hs|]. split; [reflexivity|]. cbn [results].
  eapply Forall2_impl; [exact (Steps_created _ _ _ _ Hrun)|].
  intros m r Hcreated Hop Hstatus i Hi Hvid.
  destruct (Hcreated Hop Hstatus) as (n & Hn & Hlt & Hdoc).
  rewrite Hn in Hi. injection Hi as <-.
  assert (Hnum : oid_number (oid_bytes n) = Some n) by (apply oid_number_bytes; lia).
  destruct (log_event_fires payload (mkWorld (db w1) (S (ticks w1)))
              (oid_str n) et (oid_bytes n) n (Hok _ _) Hbound Hvid
              (ObjectId_oid_str n) Hnum Het Hin) as [body Hrun'].
  eexists body, _, (oid_bytes n), n.
  split; [apply ObjectId_oid_str|]. split; [exact Hnum|]. split; [exact Hrun'|].
  cbn [db ticks].
  rewrite (fired_vehicles _ _ _ _ (data m)) by exact Hdoc.
  apply lookup_insert_eq.
Qed.

Lemma sort_by_map_same_key (g : Mutation -> Mutation) (l : list Mutation) :
  (forall m, client_timestamp (g m) = client_timestamp m) ->
  sort_by timestamp (map g l) = map g (sort_by timestamp l).
Proof.
  intros Hkey.
  assert (Hts : forall m, timestamp (g m) = timestamp m)
    by (intros m; unfold timestamp; now rewrite Hkey).
  assert (Hins : forall x l', insert_by timestamp (g x) (map g l')
                              = map g (insert_by timestamp x l')).
  { intros x l'. induction l' as [|y l' IH]; [reflexivity|].
    cbn [map insert_by]. rewrite !Hts.
    destruct (timestamp x <=? timestamp y)%Z; [reflexivity|].
    cbn [map]. now rewrite IH. }
  induction l as [|x l IH]; [reflexivity|].
  cbn [map sort_by]. now rewrite IH, Hins.
Qed.

Lemma sorted_map_same_key (g : Mutation -> Mutation) (l : list Mutation) :
  (forall m, client_timestamp (g m) = client_timestamp m) ->
  sorted client_timestamp (map g l)
  = match sorted client_timestamp l with
    | Return s => Return (map g s)
    | Raise e => Raise e
    end.
Proof.
  intros Hkey.
  assert (Hsame : map client_timestamp (map g l) = map client_timestamp l).
  { rewrite map_map. apply map_ext. exact Hkey. }
  destruct (comparable (map client_timestamp l)) eqn:Hc.
  - rewrite (sorted_comparable l Hc), (sorted_comparable (map g l)) by congruence.
    now rewrite sort_by_map_same_key.
  - rewrite (sorted_mixed l Hc), (sorted_mixed (map g l)) by congruence.
    reflexivity.
Qed.

Lemma sync_loop_map (g : Mutation -> Mutation) (ms : list Mutation) :
  (forall m w, apply_mutation (g m) w = apply_mutation m w) ->
  forall acc w, sync_loop (map g ms) acc w = sync_loop ms acc w.
Proof.
  intros Hg. induction ms as [|m ms IH]; intros acc w; [reflexivity|].
  cbn [map sync_loop]. unfold bind. rewrite Hg.
  destruct (apply_mutation m w) as [[r|e] w1]; [apply IH | reflexivity].
Qed.

(** [sync] never looks at [client_id]: whatever client ids the
    mutations carry, the response and the store are the same; nothing
    is recorded about the client and nothing is deduplicated by it. *)
Theorem sync_ignores_client_id (envelope : SyncEnvelope) (rename : Mutation -> string)
    (w : World) :
  sync (mkEnvelope
          (map (fun m => mkMutation (op m) (data m) (rename m) (client_timestamp m))
               (mutations envelope))) w
  = sync envelope w.
Proof.
  unfold sync. cbn [mutations].
  rewrite sorted_map_same_key by reflexivity.
  unfold bind, lift.
  destruct (sorted client_timestamp (mutations envelope)) as [ms|e]; [|reflexivity].
  rewrite sync_loop_map; [reflexivity|].
  intros m w0. now rewrite !apply_mutation_eq.
Qed.

End Server.

(** * The handlers on sample requests *)

(** Closed equations between a run of a handler and its outcome are
    settled by evaluation. *)
Ltac by_evaluation :=
  match goal with |- ?l = ?r => vm_cast_no_check (@eq_refl _ r) end.

(** C1: in [sync] a logEvent mutation is stored and nothing more: the
    batch that creates a vehicle and then logs a dismantling event for
    it leaves the vehicle as created, with no status, and a dismantling
    event synced for a vehicle that is already stored leaves the
    vehicles as they were, while the same event sent to POST /events
    marks the vehicle dismantled. *)
Theorem sync_does_not_run_the_rule_engine :
  fst (sync sample_clock accept_all backfilled_batch empty_world)
  = Return (mkSyncResponse
              [ result_ok "createVehicle" x1_id;
                result_ok "logEvent" "000000000000000000000001" ]
              (sample_clock 1)) /\
  events (db (snd (sync sample_clock accept_all backfilled_batch empty_world))) !! 1%N
  = Some (<["occurred_at" := VDate (sample_clock 0)]> (event_about x1_id "dismantling")) /\
  vehicles (db (snd (sync sample_clock accept_all backfilled_batch empty_world))) !! 0%N
  = Some (<["vin" := VStr "X1"]> ∅) /\
  get "status" (<["vin" := VStr "X1"]> ∅) = VNull /\
  fst (sync sample_clock accept_all dismantle_x1_batch x1_world)
  = Return (mkSyncResponse [result_ok "logEvent" "000000000000000000000001"]
                           (sample_clock 1)) /\
  vehicles (db (snd (sync sample_clock accept_all dismantle_x1_batch x1_world)))
  = vehicles (db x1_world) /\
  vehicles (db (snd (post_events sample_clock accept_all no_datetime repr_blank
                       (event_about x1_id "dismantling") x1_world))) !! 0%N
  = Some (<["status" := VStr "dismantled"]>
            (<["updated_at" := VDate (sample_clock 1)]> (<["vin" := VStr "X1"]> ∅))).
Proof. repeat (split; [by_evaluation|]). by_evaluation. Qed.

(** C2: a value outside the enumeration is neither rejected nor turned
    into "unknown": POST /vehicles, POST /events, POST /parts and a
    createVehicle mutation all store "bogus" as it came. *)
Theorem out_of_enum_value_is_stored :
  existsb (String.eqb "bogus") VehicleStatus = false /\
  existsb (String.eqb "bogus") EventType = false /\
  existsb (String.eqb "bogus") PartCondition = false /\
  fst (post_vehicles accept_all no_datetime repr_blank bogus_vehicle empty_world)
  = Return (R200 (Some (<["id" := VStr x1_id]>
                          (<["status" := VStr "bogus"]>
                          (<["engine_condition" := VStr "unknown"]>
                          (<["body_condition" := VStr "unknown"]>
                          (<["damage_level" := VStr "unknown"]> ∅))))))) /\
  vehicles (db (snd (post_vehicles accept_all no_datetime repr_blank
                       bogus_vehicle empty_world))) !! 0%N
  = Some (<["status" := VStr "bogus"]>
            (<["engine_condition" := VStr "unknown"]>
            (<["body_condition" := VStr "unknown"]>
            (<["damage_level" := VStr "unknown"]> ∅)))) /\
  events (db (snd (post_events sample_clock accept_all no_datetime repr_blank
                     bogus_event empty_world))) !! 0%N
  = Some (<["event_type" := VStr "bogus"]>
            (<["occurred_at" := VDate (sample_clock 0)]> ∅)) /\
  parts (db (snd (post_parts accept_all no_datetime repr_blank
                    bogus_part empty_world))) !! 0%N
  = Some (<["name" := VStr "door"]> (<["condition" := VStr "bogus"]> ∅)) /\
  fst (sync sample_clock accept_all bogus_batch empty_world)
  = Return (mkSyncResponse [result_ok "createVehicle" x1_id] (sample_clock 0)) /\
  vehicles (db (snd (sync sample_clock accept_all bogus_batch empty_world))) !! 0%N
  = Some (<["status" := VStr "bogus"]> ∅).
Proof. repeat (split; [by_evaluation|]). by_evaluation. Qed.

(** C7: a vehicle id that [ObjectId] rejects makes POST /events fail
    on a dismantling event: [ObjectId] raises, after the event was
    stored and before any vehicle is touched. *)
Theorem malformed_vehicle_id_fails_the_request :
  ObjectId "not-an-object-id" = None /\
  fst (post_events sample_clock accept_all no_datetime repr_blank
         (event_about "not-an-object-id" "dismantling") x1_world)
  = Raise "InvalidId: not a 12-byte input or a 24-character hex string" /\
  events (db (snd (post_events sample_clock accept_all no_datetime repr_blank
                     (event_about "not-an-object-id" "dismantling") x1_world))) !! 1%N
  = Some (<["occurred_at" := VDate (sample_clock 0)]>
            (event_about "not-an-object-id" "dismantling")) /\
  vehicles (db (snd (post_events sample_clock accept_all no_datetime repr_blank
                       (event_about "not-an-object-id" "dismantling") x1_world)))
  = vehicles (db x1_world).
Proof. repeat (split; [by_evaluation|]). by_evaluation. Qed.

(** C10 as stated fails for [occurred_at]: sent as [null] to POST
    /events, it is in the stored document, holding the server time. *)
Lemma null_occurred_at_is_stored :
  note_null_time !! "occurred_at" = Some VNull /\
  fst (post_events sample_clock accept_all no_datetime repr_blank
         note_null_time empty_world)
  = Return (R200 (Some (<["id" := VStr x1_id]>
                          (<["event_type" := VStr "note"]>
                          (<["occurred_at" := VDate (sample_clock 0)]> ∅))))) /\
  events (db (snd (post_events sample_clock accept_all no_datetime repr_blank
                     note_null_time empty_world))) !! 0%N
  = Some (<["event_type" := VStr "note"]>
            (<["occurred_at" := VDate (sample_clock 0)]> ∅)) /\
  (<["event_type" := VStr "note"]>
     (<["occurred_at" := VDate (sample_clock 0)]> (∅ : gmap string value)))
    !! "occurred_at"
  = Some (VDate (sample_clock 0)).
Proof. repeat (split; [by_evaluation|]). by_evaluation. Qed.

(** C4 as stated fails when the unknown op comes with a timestamp
    that does not compare with the others: the batch is not accepted,
    there is no ignored entry, and the vehicle, which the batch without
    the unknown op stores, is not stored. *)
Lemma unknown_op_with_other_kind_of_timestamp :
  known_op "foo" = false /\
  sync sample_clock accept_all foo_naive_batch empty_world
  = (Raise cannot_compare, empty_world) /\
  vehicles (db empty_world) !! 0%N = None /\
  fst (sync sample_clock accept_all
         (mkEnvelope (List.filter (fun m => known_op (op m)) (mutations foo_naive_batch)))
         empty_world)
  = Return (mkSyncResponse [result_ok "createVehicle" x1_id] (sample_clock 0)) /\
  vehicles (db (snd (sync sample_clock accept_all
                       (mkEnvelope (List.filter (fun m => known_op (op m))
                                      (mutations foo_naive_batch)))
                       empty_world))) !! 0%N
  = Some (<["vin" := VStr "X1"]> ∅).
Proof. repeat (split; [by_evaluation|]). by_evaluation. Qed.

(** C5 as stated fails for a batch with an offset-naive and an
    offset-aware timestamp: [sorted] raises before the loop, the
    request fails, and there is no result list, although the store
    would have taken both documents. *)
Lemma mixed_timestamps_fail_the_batch :
  length (mutations naive_and_aware_batch) = 2%nat /\
  comparable (timestamps naive_and_aware_batch) = false /\
  sync sample_clock accept_all naive_and_aware_batch empty_world
  = (Raise cannot_compare, empty_world).
Proof. repeat (split; [by_evaluation|]). by_evaluation. Qed.


(** ** The general statements at sample requests *)


(** The unknown op of [mixed_batch] comes second and is ignored; the
    vehicle that comes first is stored. *)
Lemma sync_ignores_unknown_op_witness :
  exists (rs : list (gmap string value)) (w1 : World) (r0 r1 : gmap string value) (n : N),
    sync sample_clock parts_need_name mixed_batch empty_world
    = (Return (mkSyncResponse rs (sample_clock (ticks w1))),
       mkWorld (db w1) (S (ticks w1))) /\
    rs !! 1%nat = Some r1 /\
    r1 !! "op" = Some (VStr "foo") /\
    r1 !! "status" = Some (VStr "ignored") /\
    r1 !! "reason" = Some (VStr "unknown op") /\
    r1 !! "error" = None /\
    rs !! 0%nat = Some r0 /\
    r0 !! "status" = Some (VStr "ok") /\
    r0 !! "id" = Some (VStr (oid_str n)) /\
    vehicles (db w1) !! n = Some (<["vin" := VStr "X1"]> ∅).
Proof.
  destruct (sync_ignores_unknown_op sample_clock parts_need_name no_datetime
              mixed_batch empty_world)
    as (_ & applied & rs & w1 & Hs & _ & _ & Hsync & Hign & Happ & _); [by_evaluation|].
  assert (Hsorted : sorted client_timestamp (mutations mixed_batch)
                    = Return (mutations mixed_batch)) by by_evaluation.
  rewrite Hsorted in Hs. injection Hs as <-.
  destruct (Forall2_lookup_l _ _ _ 1%nat (mkMutation "foo" ∅ "client-1" (Aware 2)) Hign)
    as (r1 & Hr1 & Hignored); [reflexivity|].
  destruct (Forall2_lookup_l _ _ _ 0%nat
              (mkMutation "createVehicle" (<["vin" := VStr "X1"]> ∅) "client-1" (Aware 1))
              Happ)
    as (r0 & Hr0 & Happlied); [reflexivity|].
  destruct (Happlied eq_refl) as [[Hok Hstored]|(e & w0 & wt & c & d & Hst & Hf & _)].
  - destruct (Hstored Hok) as (n & Hid & [[_ Hv]|[[Hop _]|[Hop _]]]);
      [|discriminate Hop..].
    exists rs, w1, r0, r1, n. split; [exact Hsync|]. split; [exact Hr1|].
    destruct (Hignored eq_refl) as (H1 & H2 & H3 & H4).
    repeat (split; [assumption|]). exact Hv.
  - exfalso. injection Hst as <- _ _. discriminate Hf.
Defined.

(** The part without a name is refused by [parts_need_name]; the turn
    of the loop returns the error entry, and the batch is answered
    with its four entries. *)
Lemma sync_isolates_failures_witness :
  apply_mutation sample_clock parts_need_name nameless_part empty_world
  = (Return (result_error "registerPart" "Document failed validation"), empty_world) /\
  exists (rs : list (gmap string value)) (w1 : World),
    sync sample_clock parts_need_name mixed_batch empty_world
    = (Return (mkSyncResponse rs (sample_clock (ticks w1))),
       mkWorld (db w1) (S (ticks w1))) /\
    length rs = 4%nat.
Proof.
  destruct (sync_isolates_failures sample_clock parts_need_name mixed_batch empty_world)
    as (Hturn & applied & rs & w1 & _ & _ & _ & Hsync & Hlen & _); [by_evaluation|].
  split.
  - apply Hturn. by_evaluation.
  - exists rs, w1. split; [exact Hsync | exact Hlen].
Defined.

(** A dismantling event for the vehicle of [x1_world]. *)
Lemma log_event_rule_engine_witness :
  exists body w',
    log_event sample_clock accept_all repr_blank
      (event_about x1_id "dismantling") x1_world = (Return body, w') /\
    vehicles (db w') !! 0%N
    = Some (<["status" := VStr "dismantled"]>
              (<["updated_at" := VDate (sample_clock 1)]> (<["vin" := VStr "X1"]> ∅))).
Proof.
  destruct (log_event_rule_engine sample_clock accept_all repr_blank
              (event_about x1_id "dismantling") x1_world
              x1_id "dismantling" (oid_bytes 0) 0%N (<["vin" := VStr "X1"]> ∅))
    as (body & w' & Hrun & _ & Hdismantled & _);
    [reflexivity | reflexivity | by_evaluation | by_evaluation | by_evaluation
     | by_evaluation | by_evaluation |].
  exists body, w'. split; [exact Hrun|].
  rewrite (Hdismantled eq_refl). apply lookup_insert_eq.
Defined.



Lemma vehicle_null_status_validates :
  model_validate no_datetime CreateVehiclePayload vehicle_null_status
  = inr vehicle_null_status_model.
Proof. by_evaluation. Qed.


(** A vehicle sent with [status: null] is stored without a status and
    with the other enumerated fields at "unknown". *)
Lemma explicit_null_is_stripped_witness :
  exists body w' (d : gmap string value),
    post_vehicles accept_all no_datetime repr_blank vehicle_null_status empty_world
    = (Return (R200 body), w') /\
    vehicles (db w') !! 0%N = Some d /\
    d !! "status" = None /\
    d !! "engine_condition" = Some (VStr "unknown").
Proof.
  destruct (explicit_null_is_stripped sample_clock accept_all no_datetime repr_blank
              vehicle_null_status vehicle_null_status_model empty_world)
    as (Hvehicles & _ & _).
  destruct (Hvehicles vehicle_null_status_validates eq_refl eq_refl)
    as (body & w' & d & Hrun & Hd & Hnull & Henum).
  exists body, w', d. split; [exact Hrun|]. split; [exact Hd|]. split.
  - apply Hnull. by_evaluation.
  - rewrite (Henum "engine_condition") by (cbn; tauto). reflexivity.
Defined.

(** ** The further statements at sample requests *)

Lemma stored_sample_served :
  _serialize repr_blank (Some stored_sample) = Some served_sample.
Proof. by_evaluation. Qed.

Lemma serialize_leaves_no_ObjectId_witness :
  served_sample !! "_id" = None /\
  forall k n, served_sample !! k <> Some (VOid n).
Proof.
  apply (serialize_leaves_no_ObjectId repr_blank (Some stored_sample) served_sample).
  exact stored_sample_served.
Defined.

Lemma serialize_id_reads_back_witness :
  exists d,
    _serialize repr_blank (Some stored_sample) = Some d /\
    d !! "id" = Some (VStr (oid_str 10)) /\
    ObjectId (oid_str 10) = Some (oid_bytes 10) /\
    oid_number (oid_bytes 10) = Some 10%N.
Proof.
  apply (serialize_id_reads_back repr_blank stored_sample 10%N);
    [by_evaluation | reflexivity].
Defined.

(** The ObjectId inside the nested dict is still an ObjectId. *)
Lemma serialize_keeps_fields_witness :
  served_sample !! "nested"
  = (fun v => match v with VOid n => VStr (oid_str n) | _ => v end)
      <$> stored_sample !! "nested".
Proof.
  apply (serialize_keeps_fields repr_blank stored_sample served_sample "nested");
    [exact stored_sample_served | discriminate | left; discriminate].
Defined.

Lemma creation_answers_stored_document_witness :
  post_vehicles accept_all no_datetime repr_blank vehicle_null_status empty_world
  = (Return (R200 (Some (<["id" := VStr (oid_str 0)]>
                           (model_dump_exclude_none vehicle_null_status_model)))),
     mkWorld (mkStore (<[0%N := model_dump_exclude_none vehicle_null_status_model]> ∅)
                      ∅ ∅ 1) 0).
Proof.
  destruct (creation_answers_stored_document accept_all no_datetime repr_blank
              vehicle_null_status vehicle_null_status_model empty_world)
    as (_ & Hvehicles & _); [reflexivity|].
  apply Hvehicles; [exact vehicle_null_status_validates | reflexivity].
Defined.

Lemma refused_document_is_not_stored_witness :
  post_vehicles store_down no_datetime repr_blank vehicle_null_status empty_world
  = (Raise "store unavailable", empty_world).
Proof.
  destruct (refused_document_is_not_stored sample_clock store_down no_datetime repr_blank
              vehicle_null_status vehicle_null_status_model empty_world
              "store unavailable")
    as (Hvehicles & _).
  apply Hvehicles; [exact vehicle_null_status_validates | reflexivity].
Defined.

Lemma vehicle_with_color_validates :
  model_validate no_datetime CreateVehiclePayload vehicle_with_color
  = inr vehicle_with_color_model.
Proof. by_evaluation. Qed.

Lemma unknown_keys_are_not_stored_witness :
  vehicle_with_color !! "color" = Some (VStr "red") /\
  exists d,
    vehicles (db (snd (post_vehicles accept_all no_datetime repr_blank
                         vehicle_with_color empty_world))) !! 0%N = Some d /\
    d !! "color" = None.
Proof.
  split; [by_evaluation|].
  destruct (unknown_keys_are_not_stored sample_clock accept_all no_datetime repr_blank
              vehicle_with_color vehicle_with_color_model empty_world "color")
    as (Hvehicles & _).
  apply Hvehicles; [exact vehicle_with_color_validates | reflexivity | reflexivity].
Defined.

(** The empty body is no event. *)
Lemma missing_required_field_is_rejected_witness :
  exists errs e,
    post_events sample_clock accept_all no_datetime repr_blank ∅ x1_world
    = (Return (R422 errs), x1_world) /\
    In e errs /\ loc e = "event_type".
Proof.
  destruct (missing_required_field_is_rejected sample_clock accept_all no_datetime
              repr_blank ∅ x1_world) as (Hevents & _).
  apply Hevents. intros s. rewrite lookup_empty. discriminate.
Defined.

Lemma sync_ignores_envelope_order_witness :
  sync sample_clock accept_all backfilled_batch empty_world
  = sync sample_clock accept_all
      (mkEnvelope
         [ mkMutation "createVehicle" (<["vin" := VStr "X1"]> ∅) "client-1" (Aware 1);
           mkMutation "logEvent" (event_about x1_id "dismantling") "client-1" (Aware 2) ])
      empty_world.
Proof.
  apply (sync_ignores_envelope_order sample_clock accept_all
           (mutations backfilled_batch)).
  - cbn. repeat constructor; cbn; intuition discriminate.
  - apply perm_swap.
Defined.

(** Scrap after dismantling leaves the vehicle scrapped. *)
Lemma later_event_wins_witness :
  exists b1 w1 b2 w2,
    log_event sample_clock accept_all repr_blank
      (event_about x1_id "dismantling") x1_world = (Return b1, w1) /\
    log_event sample_clock accept_all repr_blank
      (event_about x1_id "scrap") w1 = (Return b2, w2) /\
    vehicles (db w2) !! 0%N
    = Some (<["status" := VStr "scrapped"]>
              (<["updated_at" := VDate (sample_clock 3)]> (<["vin" := VStr "X1"]> ∅))).
Proof.
  destruct (later_event_wins sample_clock accept_all repr_blank
              (event_about x1_id "dismantling") (event_about x1_id "scrap")
              x1_world x1_id x1_id "dismantling" "scrap" (oid_bytes 0) (oid_bytes 0) 0%N
              (<["vin" := VStr "X1"]> ∅))
    as (b1 & w1 & b2 & w2 & H1 & H2 & Hv & _);
    [reflexivity | reflexivity | by_evaluation | by_evaluation | by_evaluation
     | by_evaluation | by_evaluation | reflexivity | by_evaluation | by_evaluation
     | by_evaluation | by_evaluation | reflexivity |].
  exists b1, w1, b2, w2. split; [exact H1|]. split; [exact H2 | exact Hv].
Defined.

Lemma event_without_reference_touches_no_vehicle_witness :
  exists body w',
    log_event sample_clock accept_all repr_blank dismantling_nowhere x1_world
    = (Return body, w') /\
    vehicles (db w') = vehicles (db x1_world) /\
    events (db w') !! 1%N = Some (event_data sample_clock dismantling_nowhere x1_world).
Proof.
  apply (event_without_reference_touches_no_vehicle sample_clock accept_all repr_blank
           dismantling_nowhere x1_world);
    [reflexivity | reflexivity | left; by_evaluation].
Defined.

Lemma vehicle_listing_witness :
  exists e,
    get_vehicles repr_blank no_documents None (Some 500%Z) empty_world
    = (Return (L422 [e]), empty_world) /\
    loc e = "limit".
Proof.
  destruct (vehicle_listing repr_blank no_documents None (Some 500%Z) empty_world)
    as (Hbad & _).
  apply (Hbad 500%Z); [reflexivity | right; reflexivity].
Defined.

Lemma sample_find_sound (s : Store) (c : Coll) (key v k : string) (d : gmap string value) :
  In d (sample_find s c (<[key := VStr v]> ∅) k) -> d !! key = Some (VStr v).
Proof.
  unfold sample_find. rewrite insert_empty, map_to_list_singleton.
  intros Hin.
  apply (Permutation_in _ (sort_by_perm _ _)) in Hin.
  apply List.filter_In in Hin as [_ Hs].
  unfold str_is, get in Hs.
  destruct (d !! key) as [[]|]; try discriminate.
  apply String.eqb_eq in Hs. now subst.
Qed.

(** The history asked for in upper case is the history of the
    lower-case id. *)
Lemma history_looks_up_the_canonical_id_witness :
  exists docs,
    get_vehicle_history repr_blank sample_find AF_id two_events_world
    = (Return (L200 docs), two_events_world) /\
    get_vehicle_history repr_blank sample_find af_id two_events_world
    = (Return (L200 docs), two_events_world) /\
    forall e, In e docs ->
      exists d, e = Some d /\ d !! "vehicle_id" = Some (VStr (hexlify (oid_bytes 10))).
Proof.
  destruct (history_looks_up_the_canonical_id repr_blank sample_find AF_id
              two_events_world sample_find_sound) as (_ & _ & Hgood).
  destruct (Hgood (oid_bytes 10)) as (docs & Hrun & Hsame & Hall); [by_evaluation|].
  exists docs. split; [exact Hrun|]. split; [|exact Hall].
  apply Hsame. by_evaluation.
Defined.

(** [str] of the id that both spellings name. *)
Lemma af_id_canonical : hexlify (oid_bytes 10) = af_id.
Proof. by_evaluation. Qed.

(** An id of 22 digits and two spaces is an ObjectId of eleven bytes:
    its history is looked up, under the 22 digits, and is empty; as a
    [vehicle_id] of a dismantling event it raises nothing and matches
    no vehicle. *)
Lemma padded_id_is_an_ObjectId :
  ObjectId padded_id = Some (be_bytes 11 0 []) /\
  oid_number (be_bytes 11 0 []) = None /\
  hexlify (be_bytes 11 0 []) = "0000000000000000000000" /\
  get_vehicle_history repr_blank sample_find padded_id two_events_world
  = (Return (L200 []), two_events_world) /\
  fst (post_events sample_clock accept_all no_datetime repr_blank
         (event_about padded_id "dismantling") x1_world)
  = Return (R200 (Some (<["id" := VStr "000000000000000000000001"]>
                          (<["occurred_at" := VDate (sample_clock 0)]>
                             (event_about padded_id "dismantling"))))) /\
  vehicles (db (snd (post_events sample_clock accept_all no_datetime repr_blank
                       (event_about padded_id "dismantling") x1_world)))
  = vehicles (db x1_world).
Proof. repeat (split; [by_evaluation|]). by_evaluation. Qed.

(** Of the two events of [two_events_world] only the one that names
    the vehicle in lower case is in its history. *)
Lemma history_misses_upper_case_reference :
  get_vehicle_history repr_blank sample_find AF_id two_events_world
  = (Return (L200 [Some (<["id" := VStr "00000000000000000000000b"]>
                           (event_about af_id "note"))]),
     two_events_world).
Proof. by_evaluation. Qed.

Lemma vehicle_from_empty_body_witness :
  exists body w',
    post_vehicles accept_all no_datetime repr_blank ∅ empty_world
    = (Return (R200 body), w') /\
    vehicles (db w') !! 0%N
    = Some (<["engine_condition" := VStr "unknown"]> (<["body_condition" := VStr "unknown"]>
              (<["damage_level" := VStr "unknown"]> (<["status" := VStr "unknown"]> ∅)))).
Proof.
  apply (vehicle_from_empty_body accept_all no_datetime repr_blank ∅ empty_world);
    [intros f _; apply lookup_empty | reflexivity | reflexivity].
Defined.

Lemma server_keeps_enumerations_witness :
  In "unknown" ConditionLevel.
Proof.
  destruct (server_keeps_enumerations no_datetime vehicle_null_status
              vehicle_null_status_model) as (_ & Hvehicles & _).
  apply (Hvehicles vehicle_null_status_validates "engine_condition" ConditionLevel).
  - cbn. tauto.
  - intros s Hs.
    assert (Habsent : vehicle_null_status !! "engine_condition" = None) by by_evaluation.
    rewrite Habsent in Hs. discriminate.
  - by_evaluation.
Defined.

Lemma synced_vehicle_can_be_dismantled_witness :
  exists applied resp w',
    sorted client_timestamp (mutations x1_batch) = Return applied /\
    sync sample_clock accept_all x1_batch empty_world = (Return resp, w') /\
    Forall2 (fun m (r : gmap string value) =>
               op m = "createVehicle" -> r !! "status" = Some (VStr "ok") ->
               forall i, r !! "id" = Some (VStr i) ->
                         event_about x1_id "dismantling" !! "vehicle_id" = Some (VStr i) ->
               exists body w'' b n,
                 ObjectId i = Some b /\
                 oid_number b = Some n /\
                 log_event sample_clock accept_all repr_blank
                   (event_about x1_id "dismantling") w' = (Return body, w'') /\
                 vehicles (db w'') !! n
                 = Some (<["status" := VStr "dismantled"]>
                           (<["updated_at" := VDate (sample_clock (S (ticks w')))]>
                              (data m))))
            applied (results resp).
Proof.
  apply (synced_vehicle_can_be_dismantled sample_clock accept_all repr_blank
           x1_batch empty_world (event_about x1_id "dismantling") "dismantling");
    [by_evaluation | reflexivity | vm_compute; reflexivity | by_evaluation | reflexivity].
Defined.

(** The vehicle of [bogus_batch] is stored as sent. *)
Lemma sync_stores_data_as_sent_witness :
  exists applied rs w1,
    sorted client_timestamp (mutations bogus_batch) = Return applied /\
    Permutation applied (mutations bogus_batch) /\
    Steps sample_clock accept_all empty_world applied rs w1 /\
    sync sample_clock accept_all bogus_batch empty_world
    = (Return (mkSyncResponse rs (sample_clock (ticks w1))),
       mkWorld (db w1) (S (ticks w1))) /\
    Forall2 (stored_as_sent w1) applied rs.
Proof.
  apply (sync_stores_data_as_sent sample_clock accept_all bogus_batch empty_world).
  by_evaluation.
Defined.
